(** * speechcraft: the /analyze-speech pipeline and its result store

    A shallow embedding of the Express server of the speech analyzer
    (the file that defines [analysisResults], the three GET routes and
    the POST /analyze-speech handler), and the properties of its result
    lifecycle.

    Layout:
    - [JsString]   ECMAScript strings as sequences of UTF-16 code units,
                   with the String.prototype methods the server calls;
    - [RegExp]     a backtracking matcher in the style of the ECMAScript
                   pattern semantics, and the two pattern literals of the
                   handler;
    - [Server]     the routes as functions on an explicit server state
                   (result map, pending timers, file system, clock), and
                   the events between requests;
    - [Policy]     the parsing policy in plain list terms;
    - [Stated]     properties as the specification words them, where
                   the code differs;
    - [Examples]   sample requests and states;
    - the lemmas and theorems. *)

From Stdlib Require Import NArith ZArith Ascii String List Bool Lia.
From Stdlib Require Import DecimalString DecimalN.
From stdpp Require Import base option list gmap fin_maps.

Local Open Scope N_scope.

(* ===================================================================== *)
(** * ECMAScript strings                                                  *)
(* ===================================================================== *)

Module JsString.

(** A String value is a finite sequence of 16-bit code units. *)
Definition jsstring := list N.

(** String literals of the source are written as Rocq strings and read
    one code unit per character (all literals of the server that matter
    here are ASCII). *)
Fixpoint lit (s : string) : jsstring :=
  match s with
  | EmptyString => []
  | String a s' => N_of_ascii a :: lit s'
  end.

(** WhiteSpace and LineTerminator code points of ECMA-262: TAB, LF, VT,
    FF, CR, SP, NBSP, the Zs category, LS, PS and ZWNBSP. Both [\s] in a
    pattern and [String.prototype.trim] use exactly this set. *)
Definition isLineTerminator (c : N) : bool :=
  (c =? 10) || (c =? 13) || (c =? 0x2028) || (c =? 0x2029).

Definition isWhiteSpace (c : N) : bool :=
  (c =? 9) || (c =? 11) || (c =? 12) || (c =? 32) || (c =? 160)
  || (c =? 0x1680) || ((0x2000 <=? c) && (c <=? 0x200A))
  || (c =? 0x202F) || (c =? 0x205F) || (c =? 0x3000) || (c =? 0xFEFF).

Definition isStrWhiteSpaceChar (c : N) : bool :=
  isWhiteSpace c || isLineTerminator c.

(** [String.prototype.trimStart], [trimEnd] and [trim]. *)
Fixpoint trimStart (s : jsstring) : jsstring :=
  match s with
  | c :: s' => if isStrWhiteSpaceChar c then trimStart s' else s
  | [] => []
  end.

Definition trimEnd (s : jsstring) : jsstring := rev (trimStart (rev s)).

Definition trim (s : jsstring) : jsstring := trimEnd (trimStart s).

(** [s.substring(0, n)] and [s.substr(start, len)] for in-range,
    non-negative integer arguments (the only way the server calls
    them). *)
Definition substring0 (n : nat) (s : jsstring) : jsstring := take n s.

Definition substr (start len : nat) (s : jsstring) : jsstring :=
  take len (drop start s).

(** [s.includes(t)]: [t] occurs in [s] as a contiguous run. *)
Fixpoint startsWith (t s : jsstring) : bool :=
  match t, s with
  | [], _ => true
  | a :: t', b :: s' => (a =? b) && startsWith t' s'
  | _ :: _, [] => false
  end.

Fixpoint includes (t s : jsstring) : bool :=
  startsWith t s ||
  match s with
  | [] => false
  | _ :: s' => includes t s'
  end.

(** Decimal rendering of a non-negative integer Number in a template
    literal. *)
Definition ofN (n : N) : jsstring :=
  lit (NilEmpty.string_of_uint (N.to_uint n)).

(** The lower-case mapping of the host. [String.prototype.toLowerCase]
    follows the Unicode Character Database, which is not part of the
    program; it is taken as a parameter of the server model. *)
Record Host := {
  toLowerCase : jsstring -> jsstring
}.

(** The ASCII part of the mappings, which is fixed by Unicode. *)
Definition asciiUpper (c : N) : N :=
  if (97 <=? c) && (c <=? 122) then c - 32 else c.

Definition asciiLower (c : N) : N :=
  if (65 <=? c) && (c <=? 90) then c + 32 else c.

(** A host whose mapping acts on ASCII letters only; used to run the
    definitions on concrete inputs. *)
Definition asciiHost : Host :=
  {| toLowerCase := map asciiLower |}.

End JsString.

Export JsString.

(* ===================================================================== *)
(** * Regular expressions                                                 *)
(* ===================================================================== *)

Module RegExp.

(** The pattern syntax used by the server: literal characters, the class
    escapes [\s] and [\S] inside or outside a character class,
    sequencing, disjunction, the [*] and [*?] quantifiers, capturing
    parentheses, positive lookahead and the [$] assertion. *)
Inductive ClassAtom :=
| ClassEscape_s            (* \s *)
| ClassEscape_S            (* \S *)
| ClassChar (c : N).

Inductive Regex :=
| REmpty
| RChar (c : N)
| RClass (items : list ClassAtom)      (* \s is [RClass [ClassEscape_s]] *)
| RSeq (r1 r2 : Regex)
| RAlt (r1 r2 : Regex)
| RStar (greedy : bool) (r : Regex)
| RGroup (n : nat) (r : Regex)         (* n-th left parenthesis, from 1 *)
| RLookahead (r : Regex)               (* (?= r) *)
| REnd.                                (* $ *)

Record Flags := { ignoreCase : bool; multiline : bool }.

(** A pattern literal read as the sequence of its characters. *)
Fixpoint RLit (s : jsstring) : Regex :=
  match s with
  | [] => REmpty
  | c :: s' => RSeq (RChar c) (RLit s')
  end.

(** The matcher state of ECMA-262 (22.2.2.1): the index reached and the
    captures so far. The input is carried as the suffix still to be
    read; no construct of the syntax above looks behind [endIndex]. *)
Record MatchState := {
  endIndex : nat;
  rest : jsstring;
  captures : list (nat * jsstring)
}.

Definition MatcherContinuation := MatchState -> option MatchState.
Definition Matcher := MatchState -> MatcherContinuation -> option MatchState.

(** Canonicalize (22.2.2.7.3) without the [u] flag. A code unit of 128
    or more never canonicalizes to one below 128 (step 5), and white
    space has no case; so on the ASCII range the mapping is the whole
    story for patterns whose literal characters are ASCII, as both
    patterns of the server are. *)
Definition Canonicalize (f : Flags) (ch : N) : N :=
  if ignoreCase f then asciiUpper ch else ch.

Definition atomMatches (a : ClassAtom) (ch : N) : bool :=
  match a with
  | ClassEscape_s => isStrWhiteSpaceChar ch
  | ClassEscape_S => negb (isStrWhiteSpaceChar ch)
  | ClassChar c => ch =? c
  end.

Definition classMatches (items : list ClassAtom) (ch : N) : bool :=
  existsb (fun a => atomMatches a ch) items.

(** CharacterSetMatcher: consume one code unit that satisfies [A]. *)
Definition CharacterSetMatcher (A : N -> bool) : Matcher :=
  fun x c =>
    match rest x with
    | [] => None
    | ch :: r =>
        if A ch
        then c {| endIndex := S (endIndex x); rest := r;
                  captures := captures x |}
        else None
    end.

(** RepeatMatcher for min = 0, max = infinity. An iteration that
    consumes nothing is rejected, so every iteration shortens the
    remaining input and [fuel] above its length is never used up. (The
    captures of groups inside the repeated atom would be reset at each
    iteration; neither pattern of the server has such a group.) *)
Fixpoint RepeatMatcher (fuel : nat) (m : Matcher) (greedy : bool)
    (x : MatchState) (c : MatcherContinuation) : option MatchState :=
  match fuel with
  | O => None
  | S fuel' =>
      let d : MatcherContinuation := fun y =>
        if Nat.eqb (endIndex y) (endIndex x) then None
        else RepeatMatcher fuel' m greedy y c in
      if greedy then
        match m x d with
        | Some z => Some z
        | None => c x
        end
      else
        match c x with
        | Some z => Some z
        | None => m x d
        end
  end.

Definition setCapture (n : nat) (s : jsstring) (y : MatchState) : MatchState :=
  {| endIndex := endIndex y; rest := rest y;
     captures := (n, s) :: captures y |}.

Fixpoint CompileSubpattern (f : Flags) (r : Regex) : Matcher :=
  match r with
  | REmpty => fun x c => c x
  | RChar ch =>
      CharacterSetMatcher (fun cc => Canonicalize f cc =? Canonicalize f ch)
  | RClass items => CharacterSetMatcher (classMatches items)
  | RSeq r1 r2 =>
      fun x c => CompileSubpattern f r1 x
                   (fun y => CompileSubpattern f r2 y c)
  | RAlt r1 r2 =>
      fun x c =>
        match CompileSubpattern f r1 x c with
        | Some z => Some z
        | None => CompileSubpattern f r2 x c
        end
  | RStar greedy r1 =>
      fun x c =>
        RepeatMatcher (S (length (rest x))) (CompileSubpattern f r1)
          greedy x c
  | RGroup n r1 =>
      fun x c =>
        CompileSubpattern f r1 x
          (fun y => c (setCapture n
                         (take (endIndex y - endIndex x) (rest x)) y))
  | RLookahead r1 =>
      fun x c =>
        match CompileSubpattern f r1 x Some with
        | None => None
        | Some y => c {| endIndex := endIndex x; rest := rest x;
                         captures := captures y |}
        end
  | REnd =>
      fun x c =>
        match rest x with
        | [] => c x
        | ch :: _ =>
            if multiline f && isLineTerminator ch then c x else None
        end
  end.

(** The match object: [index], the matched text [m[0]] and the groups. *)
Record MatchResult := {
  index : nat;
  matched : jsstring;
  groups : list (nat * jsstring)
}.

(** RegExpBuiltinExec for a pattern without the [g] and [y] flags: try
    every start index from 0 up to the length of the input, leftmost
    first. The start index and the input from there on are returned
    with the final state. *)
Fixpoint findStart (m : Matcher) (i : nat) (s : jsstring)
  : option (nat * jsstring * MatchState) :=
  match m {| endIndex := i; rest := s; captures := [] |} Some with
  | Some y => Some (i, s, y)
  | None =>
      match s with
      | [] => None
      | _ :: s' => findStart m (S i) s'
      end
  end.

(** [str.match(re)] for a non-global [re]: [null] is [None]. *)
Definition String_match (s : jsstring) (re : Regex) (f : Flags)
  : option MatchResult :=
  match findStart (CompileSubpattern f re) 0 s with
  | None => None
  | Some (i, s', y) =>
      Some {| index := i;
              matched := take (endIndex y - i) s';
              groups := captures y |}
  end.

(** [m[n]] for n >= 1; [undefined] (a group that did not take part) is
    [None]. *)
Fixpoint group (n : nat) (caps : list (nat * jsstring)) : option jsstring :=
  match caps with
  | [] => None
  | (k, v) :: caps' => if Nat.eqb k n then Some v else group n caps'
  end.

(** A matcher that tests the remaining input with [ok] and consumes
    nothing. *)
Definition tests (m : Matcher) (ok : jsstring -> bool) : Prop :=
  forall i s caps c,
    m (Build_MatchState i s caps) c
    = if ok s then c (Build_MatchState i s caps) else None.

(** The two pattern literals of the handler. *)

(** [/Feedback:\s*([\s\S]*?)(?=\nCorrected:|$)/i] *)
Definition feedbackRegExp : Regex :=
  RSeq (RLit (lit "Feedback:"))
  (RSeq (RStar true (RClass [ClassEscape_s]))
  (RSeq (RGroup 1 (RStar false (RClass [ClassEscape_s; ClassEscape_S])))
        (RLookahead (RAlt (RLit (10 :: lit "Corrected:")) REnd)))).

(** [/Corrected:\s*([\s\S]*?)$/i] *)
Definition correctedRegExp : Regex :=
  RSeq (RLit (lit "Corrected:"))
  (RSeq (RStar true (RClass [ClassEscape_s]))
  (RSeq (RGroup 1 (RStar false (RClass [ClassEscape_s; ClassEscape_S])))
        REnd)).

Definition flags_i : Flags := {| ignoreCase := true; multiline := false |}.

End RegExp.

Export RegExp.


(* ===================================================================== *)
(** * The server                                                          *)
(* ===================================================================== *)

Module Server.

(** ** Values that cross the boundary of the program *)

(** The properties of a thrown Error object that the handler reads:
    [error.code], [error.message] and [error.response?.status]. *)
Record JsError := {
  code : option jsstring;
  message : jsstring;
  response_status : option N
}.

(** A settled promise of an external call. *)
Inductive outcome (A : Type) :=
| Fulfilled (a : A)
| Rejected (e : JsError).

Arguments Fulfilled {A} a.
Arguments Rejected {A} e.

Definition TypeError (msg : string) : JsError :=
  {| code := None; message := lit msg; response_status := None |}.

Definition ENOENT : JsError :=
  {| code := Some (lit "ENOENT");
     message := lit "ENOENT: no such file or directory";
     response_status := None |}.

(** The part of the Deepgram response body that the optional chain
    [data?.results?.channels[0]?.alternatives[0]?.transcript] walks;
    [None] is a missing (undefined) property. *)
Record Alternative := { alt_transcript : option jsstring }.
Record Channel := { alternatives : option (list Alternative) }.
Record Results := { channels : option (list Channel) }.
Record DeepgramData := { results : option Results }.

(** What [new gTTS(text, 'en')] and its [save] did: the whole file was
    written and the callback got no error; or the callback got an error,
    possibly after the file had been created; or the constructor or
    [save] threw. The library and the service behind it are outside the
    program. *)
Inductive TtsOutcome :=
| TtsSaved (bytes : list N)
| TtsError (partial : option (list N))
| TtsThrows (e : JsError).

(** The uploaded file as multer leaves it in [req.file]. *)
Record UploadedFile := {
  path : jsstring;
  mimetype : option jsstring
}.

(** One POST /analyze-speech request together with what the outside
    world answers while it is handled. *)
Record Request := {
  file : option UploadedFile;                 (* req.file *)
  deepgram : outcome (option DeepgramData);   (* the Deepgram call: .data *)
  gemini : outcome (option jsstring);
      (* the Gemini call: data?.candidates?.[0]?.content?.parts?.[0]?.text *)
  date_now : N;                               (* Date.now() *)
  random36 : jsstring;                        (* Math.random().toString(36) *)
  tts : jsstring -> TtsOutcome;               (* new gTTS(text,'en').save *)
  iso_now : jsstring                          (* new Date().toISOString() *)
}.

Record Config := {
  cwd : jsstring;                 (* process.cwd() *)
  dirname : jsstring;             (* __dirname *)
  NODE_ENV : option jsstring      (* process.env.NODE_ENV *)
}.

(** ** The result record and the server state *)

Record ResultRecord := {
  rid : jsstring;                 (* id *)
  transcript : jsstring;
  feedback : jsstring;
  correctedText : jsstring;
  audio : jsstring;
  timestamp : jsstring
}.

(** [analysisResults] is the Map of the source. [timers] are the pending
    [setTimeout] callbacks, each with the time it is due and the id it
    deletes. [files] is the file system, keyed by absolute path. [clock]
    counts milliseconds. *)
Record State := {
  analysisResults : gmap jsstring ResultRecord;
  timers : list (N * jsstring);
  files : gmap jsstring (list N);
  clock : N
}.

Inductive ResponseBody :=
| ErrorBody (error : jsstring) (msg : option jsstring)
            (details : option jsstring)
| SuccessBody (analysisId redirectUrl preview_transcript : jsstring)
              (hasCorrections : bool)
| RecordBody (r : ResultRecord)
| AudioBody (filename : jsstring) (base64 : jsstring)
      (* the bytes of Buffer.from(base64, 'base64') *)
| HealthBody (activeAnalyses : nat).

Record Response := { status : N; body : ResponseBody }.

(** ** Node built-ins *)

Definition path_isAbsolute (p : jsstring) : bool := startsWith (lit "/") p.

(** [path.resolve(p)] and [path.join(a, b)] for the plain segments the
    server passes (no [.] or [..]). *)
Definition path_resolve (cfg : Config) (p : jsstring) : jsstring :=
  if path_isAbsolute p then p else cwd cfg ++ lit "/" ++ p.

Definition path_join (a b : jsstring) : jsstring := a ++ lit "/" ++ b.

Definition base64Char (i : N) : N :=
  if i <? 26 then 65 + i
  else if i <? 52 then 97 + (i - 26)
  else if i <? 62 then 48 + (i - 52)
  else if i =? 62 then 43 else 47.

(** [buffer.toString("base64")]. *)
Fixpoint toString_base64 (b : list N) : jsstring :=
  match b with
  | [] => []
  | [x] => [base64Char (x / 4); base64Char ((x mod 4) * 16); 61; 61]
  | [x; y] =>
      [base64Char (x / 4); base64Char ((x mod 4) * 16 + y / 16);
       base64Char ((y mod 16) * 4); 61]
  | x :: y :: z :: r =>
      base64Char (x / 4) :: base64Char ((x mod 4) * 16 + y / 16)
      :: base64Char ((y mod 16) * 4 + z / 64) :: base64Char (z mod 64)
      :: toString_base64 r
  end.

(** [fs.readFile], [fs.unlink]: a missing file rejects with ENOENT. *)
Definition fs_readFile (cfg : Config) (p : jsstring) (s : State)
  : outcome (list N) :=
  match files s !! path_resolve cfg p with
  | Some b => Fulfilled b
  | None => Rejected ENOENT
  end.

Definition setFiles (fs : gmap jsstring (list N)) (s : State) : State :=
  {| analysisResults := analysisResults s; timers := timers s;
     files := fs; clock := clock s |}.

Definition fs_unlink (cfg : Config) (p : jsstring) (s : State)
  : outcome unit * State :=
  match files s !! path_resolve cfg p with
  | Some _ => (Fulfilled tt, setFiles (delete (path_resolve cfg p) (files s)) s)
  | None => (Rejected ENOENT, s)
  end.

(** Lines 172-182: [new gTTS(...)] and [tts.save(p, callback)] wrapped
    in the Promise of the handler. *)
Definition tts_save (cfg : Config) (o : TtsOutcome) (p : jsstring) (s : State)
  : outcome unit * State :=
  match o with
  | TtsSaved b =>
      (Fulfilled tt, setFiles (<[path_resolve cfg p := b]> (files s)) s)
  | TtsError partial =>
      (Rejected {| code := None;
                   message := lit "Failed to generate corrected audio";
                   response_status := None |},
       match partial with
       | Some b => setFiles (<[path_resolve cfg p := b]> (files s)) s
       | None => s
       end)
  | TtsThrows e => (Rejected e, s)
  end.

(** ** Control flow of an async handler body: go on with a value, leave
    through [return res...], or throw into the [catch]. *)
Inductive flow (A : Type) :=
| Next (a : A)
| Reply (r : Response)
| Throw (e : JsError).

Arguments Next {A} a.
Arguments Reply {A} r.
Arguments Throw {A} e.

Definition M (A : Type) := State -> flow A * State.

Definition ret {A} (a : A) : M A := fun s => (Next a, s).

Definition bind {A B} (m : M A) (k : A -> M B) : M B :=
  fun s =>
    match m s with
    | (Next a, s') => k a s'
    | (Reply r, s') => (Reply r, s')
    | (Throw e, s') => (Throw e, s')
    end.

Definition reply {A} (r : Response) : M A := fun s => (Reply r, s).

(** [await] of an external call whose settlement is given. *)
Definition await {A} (o : outcome A) : M A :=
  fun s => match o with
           | Fulfilled a => (Next a, s)
           | Rejected e => (Throw e, s)
           end.

(** [await] of a call that also changes the state. *)
Definition awaitS {A} (f : State -> outcome A * State) : M A :=
  fun s => match f s with
           | (Fulfilled a, s') => (Next a, s')
           | (Rejected e, s') => (Throw e, s')
           end.

Definition get : M State := fun s => (Next s, s).

Notation "'do' x <- m ; k" := (bind m (fun x => k))
  (at level 10, x name, m at level 100, k at level 200, only parsing).
Notation "'do_' m ; k" := (bind m (fun _ => k))
  (at level 10, m at level 100, k at level 200, only parsing).

(** ** POST /analyze-speech *)

(** Line 113: the optional chain. Indexing [undefined] throws. *)
Definition extractTranscript (data : option DeepgramData)
  : outcome (option jsstring) :=
  match data with
  | None => Fulfilled None
  | Some d =>
    match results d with
    | None => Fulfilled None
    | Some r =>
      match channels r with
      | None =>
          Rejected (TypeError "Cannot read properties of undefined (reading '0')")
      | Some chs =>
        match head chs with
        | None => Fulfilled None
        | Some ch =>
          match alternatives ch with
          | None =>
              Rejected (TypeError "Cannot read properties of undefined (reading '0')")
          | Some alts =>
            match head alts with
            | None => Fulfilled None
            | Some a => Fulfilled (alt_transcript a)
            end
          end
        end
      end
    end
  end.

Definition isEmpty (s : jsstring) : bool :=
  match s with [] => true | _ => false end.

(** Line 116: [!transcript || transcript.trim() === ''], with the
    transcript when the test is false. *)
Definition noSpeech (t : option jsstring) : bool :=
  match t with
  | None => true
  | Some s => isEmpty s || isEmpty (trim s)
  end.

(** [x || ""] for a string or [undefined]. *)
Definition orEmpty (x : option jsstring) : jsstring :=
  match x with
  | Some (c :: r) => c :: r
  | _ => []
  end.

Definition defaultFeedback : jsstring := lit "No specific feedback generated.".

(** [m[1].trim()]; calling [trim] on [undefined] throws. *)
Definition group1_trim (m : MatchResult) : outcome jsstring :=
  match group 1 (groups m) with
  | Some c => Fulfilled (trim c)
  | None =>
      Rejected (TypeError "Cannot read properties of undefined (reading 'trim')")
  end.

(** Lines 153-160: the feedback and the corrected text from the model's
    answer. *)
Definition parseAnalysis (transcript aiText : jsstring)
  : outcome (jsstring * jsstring) :=
  let feedbackMatch := String_match aiText feedbackRegExp flags_i in
  let correctedMatch := String_match aiText correctedRegExp flags_i in
  match (match feedbackMatch with
         | Some m => group1_trim m
         | None => Fulfilled defaultFeedback
         end) with
  | Rejected e => Rejected e
  | Fulfilled feedback =>
    match (match correctedMatch with
           | Some m => group1_trim m
           | None => Fulfilled transcript
           end) with
    | Rejected e => Rejected e
    | Fulfilled correctedText => Fulfilled (feedback, correctedText)
    end
  end.

(** The raw capture [feedbackMatch[1]] of line 156. *)
Definition feedbackCapture (aiText : jsstring) : option jsstring :=
  match String_match aiText feedbackRegExp flags_i with
  | Some m => group 1 (groups m)
  | None => None
  end.

Definition retention : N := 3600000.

(** Lines 203-207: [analysisResults.set] and the [setTimeout] that
    deletes the entry one hour later. *)
Definition storeResult (r : ResultRecord) : M unit :=
  fun s =>
    (Next tt,
     {| analysisResults := <[rid r := r]> (analysisResults s);
        timers := timers s ++ [(clock s + retention, rid r)];
        files := files s;
        clock := clock s |}).

(** Line 169: the id of a run. *)
Definition newAnalysisId (req : Request) : jsstring :=
  lit "analysis_" ++ ofN (date_now req) ++ lit "_"
  ++ substr 2 9 (random36 req).

(** Line 170: the file the corrected speech is written to. *)
Definition correctedAudioPathOf (cfg : Config) (req : Request) : jsstring :=
  path_join (path_join (dirname cfg) (lit "temp"))
    (lit "speech_" ++ newAnalysisId req ++ lit ".mp3").

Definition jsonError (st : N) (e m : string) : Response :=
  {| status := st; body := ErrorBody (lit e) (Some (lit m)) None |}.

(** Line 216: the transcript as the preview shows it. *)
Definition previewOf (transcript : jsstring) : jsstring :=
  substring0 100 transcript
  ++ (if (100 <? length transcript)%nat then lit "..." else []).

(** Line 234: [error.code === 'ECONNABORTED' ||
    error.message.includes('timeout')]. *)
Definition isTimeout (e : JsError) : bool :=
  bool_decide (code e = Some (lit "ECONNABORTED"))
  || includes (lit "timeout") (message e).

(** Some stage of the pipeline fails whatever it is given: the
    transcription call or the feedback call rejects, or the synthesis
    does not save. *)
Definition stage_fails (req : Request) : Prop :=
  (exists e, deepgram req = Rejected e)
  \/ (exists e, gemini req = Rejected e)
  \/ (forall text bytes, tts req text <> TtsSaved bytes).

(** The gtts package does not synthesize an empty text: with
    [correctedText] empty, [new gTTS(correctedText, 'en')] of line 172
    throws ("No text to speak") before anything is written. A request
    whose synthesizer behaves that way has no successful save of the
    empty text. *)
Definition refuses_empty_text (req : Request) : Prop :=
  forall bytes, tts req [] <> TtsSaved bytes.

Section Handler.

Context (host : Host) (cfg : Config).

(** Lines 80-200 of the [try] block: the three stages, up to the
    result object. The awaits of one request are run back to back: the
    handler reads and writes [analysisResults] only in the synchronous
    lines 203-207, and the files it touches are named after its own
    upload and its own analysis id. *)
Definition stages (req : Request) : M ResultRecord :=
  match file req with
  | None =>
      reply (jsonError 400 "No audio file uploaded"
               "Please select an audio file to analyze")
  | Some f =>
    (* STEP 1: speech to text *)
    let audioPath := path_resolve cfg (path f) in
    do audioBuffer <- awaitS (fun s => (fs_readFile cfg audioPath s, s)) ;
    do deepgramData <- await (deepgram req) ;
    do_ awaitS (fs_unlink cfg audioPath) ;
    do t <- await (extractTranscript deepgramData) ;
    if noSpeech t then
      reply (jsonError 400 "No speech detected"
               "Could not detect any speech in the audio file. Please try again with a clearer recording.")
    else
    let transcript := default [] t in
    (* STEP 2: feedback and correction *)
    do geminiText <- await (gemini req) ;
    let aiText := orEmpty geminiText in
    do parsed <- await (parseAnalysis transcript aiText) ;
    let feedback := fst parsed in
    let correctedText := snd parsed in
    (* STEP 3: corrected audio; [fs.mkdir(tempDir, {recursive: true})]
       is taken to succeed, directories are not part of [files] *)
    let analysisId := newAnalysisId req in
    let correctedAudioPath := correctedAudioPathOf cfg req in
    do_ awaitS (tts_save cfg (tts req correctedText) correctedAudioPath) ;
    do audioBufferCorrected <-
      awaitS (fun s => (fs_readFile cfg correctedAudioPath s, s)) ;
    let base64Audio := toString_base64 audioBufferCorrected in
    do_ awaitS (fs_unlink cfg correctedAudioPath) ;
    (* STEP 4: the result *)
    ret {| rid := analysisId; transcript := transcript;
           feedback := feedback; correctedText := correctedText;
           audio := base64Audio; timestamp := iso_now req |}
  end.

(** Lines 211-219: the response of a successful run. *)
Definition successResponse (result : ResultRecord) : Response :=
  {| status := 200;
     body := SuccessBody (rid result) (lit "/results/" ++ rid result)
       (previewOf (transcript result))
       (negb (bool_decide (toLowerCase host (correctedText result)
                           = toLowerCase host (transcript result)))) |}.

(** The [try] block, lines 80-219. *)
Definition tryBlock (req : Request) : M Response :=
  do result <- stages req ;
  do_ storeResult result ;
  reply (successResponse result).

(** Lines 234-252: the response chosen for a caught error. *)
Definition errorResponse (e : JsError) : Response :=
  if isTimeout e
  then jsonError 408 "Request timeout"
         "The analysis took too long. Please try with a shorter audio file."
  else if bool_decide (response_status e = Some 401)
  then jsonError 500 "API authentication failed"
         "There was an issue with the speech analysis service. Please try again later."
  else {| status := 500;
          body := ErrorBody (lit "Analysis failed")
            (Some (lit "Failed to analyze speech. Please ensure you uploaded a valid audio file and try again."))
            (if bool_decide (NODE_ENV cfg = Some (lit "development"))
             then Some (message e) else None) |}.

(** The [catch] block, lines 221-253: the upload is unlinked, an error
    of that unlink is swallowed, and the error response is sent. *)
Definition catchBlock (req : Request) (e : JsError) (s : State)
  : Response * State :=
  let s' :=
    match file req with
    | Some f => snd (fs_unlink cfg (path f) s)
    | None => s
    end in
  (errorResponse e, s').

Definition analyzeSpeech (req : Request) (s : State) : Response * State :=
  match tryBlock req s with
  | (Next r, s') => (r, s')
  | (Reply r, s') => (r, s')
  | (Throw e, s') => catchBlock req e s'
  end.

End Handler.

(** Two states with the same result map, timers and clock. *)
Definition same_store (s s' : State) : Prop :=
  analysisResults s' = analysisResults s
  /\ timers s' = timers s /\ clock s' = clock s.

(** [m] leaves the result map, the timers and the clock alone. *)
Definition frames {A} (m : M A) : Prop :=
  forall s fl s', m s = (fl, s') -> same_store s s'.

(** ** The GET routes *)

(** GET /api/analysis/:id *)
Definition getAnalysis (analysisId : jsstring) (s : State) : Response :=
  match analysisResults s !! analysisId with
  | None => {| status := 404;
               body := ErrorBody (lit "Analysis not found") None None |}
  | Some result => {| status := 200; body := RecordBody result |}
  end.

(** GET /api/download/:id; [!result.audio] holds for the empty string. *)
Definition download (analysisId : jsstring) (s : State) : Response :=
  match analysisResults s !! analysisId with
  | Some result =>
      if isEmpty (audio result)
      then {| status := 404;
              body := ErrorBody (lit "Audio file not found") None None |}
      else {| status := 200;
              body := AudioBody (lit "corrected_speech_" ++ analysisId
                                 ++ lit ".mp3") (audio result) |}
  | None => {| status := 404;
               body := ErrorBody (lit "Audio file not found") None None |}
  end.

(** GET /api/health *)
Definition health (s : State) : Response :=
  {| status := 200; body := HealthBody (size (analysisResults s)) |}.

(** ** Time and the timer callbacks *)

(** What happens to the server between and around requests: time
    passes, a due [setTimeout] callback runs, a POST /analyze-speech is
    handled. *)
Inductive event :=
| Elapse (d : N)
| Fire (k : nat)            (* the k-th pending timer *)
| Post (req : Request).

Section Loop.

Context (host : Host) (cfg : Config).

(** [slack] bounds how late the runtime may run a callback that is due:
    time does not pass beyond [due + slack] while the timer is
    pending. *)
Context (slack : N).

Definition mayElapse (t : N) (s : State) : bool :=
  forallb (fun tm => t <=? fst tm + slack) (timers s).

(** One event. A timer callback runs once, not before it is due, and
    is then gone; it is the arrow function of lines 204-207, which
    deletes the entry and logs the id. The server log is not part of
    the state, so the id is returned. *)
Definition step (s : State) (e : event) : option (State * list jsstring) :=
  match e with
  | Elapse d =>
      if mayElapse (clock s + d) s
      then Some ({| analysisResults := analysisResults s;
                    timers := timers s; files := files s;
                    clock := clock s + d |}, [])
      else None
  | Fire k =>
      match timers s !! k with
      | Some (due, analysisId) =>
          if due <=? clock s
          then Some ({| analysisResults := delete analysisId (analysisResults s);
                        timers := delete k (timers s);
                        files := files s; clock := clock s |},
                     [analysisId])
          else None
      | None => None
      end
  | Post req => Some (snd (analyzeSpeech host cfg req s), [])
  end.

(** A run of events, with the ids cleaned up on the way, in order. *)
Fixpoint run (s : State) (es : list event) : option (State * list jsstring) :=
  match es with
  | [] => Some (s, [])
  | e :: es' =>
      match step s e with
      | None => None
      | Some (s1, l1) =>
          match run s1 es' with
          | None => None
          | Some (s2, l2) => Some (s2, l1 ++ l2)
          end
      end
  end.

(** Where the entry stored under [analysisId] stands, in a state and
    with the clean-ups logged so far: still stored, with its one timer
    pending; or deleted by that timer, once. *)
Definition lifecycle (analysisId : jsstring) (r : ResultRecord) (due : N)
    (s : State) (cleaned : list jsstring) : Prop :=
  (analysisResults s !! analysisId = Some r
   /\ filter (fun tm => tm.2 = analysisId) (timers s) = [(due, analysisId)]
   /\ clock s <= due + slack
   /\ filter (fun x => x = analysisId) cleaned = [])
  \/ (analysisResults s !! analysisId = None
      /\ filter (fun tm => tm.2 = analysisId) (timers s) = []
      /\ due <= clock s
      /\ filter (fun x => x = analysisId) cleaned = [analysisId]).

End Loop.

End Server.

Export Server.

(* ===================================================================== *)
(** * The parsing policy in plain list terms                              *)
(* ===================================================================== *)

Module Policy.

(** [p] is a prefix of [s] up to the case of ASCII letters. *)
Fixpoint ciStartsWith (p s : jsstring) : bool :=
  match p, s with
  | [], _ => true
  | a :: p', b :: s' => (asciiUpper b =? asciiUpper a) && ciStartsWith p' s'
  | _ :: _, [] => false
  end.

(** The text after the first case-insensitive occurrence of [p]. *)
Fixpoint afterMarker (p s : jsstring) : option jsstring :=
  if ciStartsWith p s then Some (drop (length p) s)
  else match s with
       | [] => None
       | _ :: s' => afterMarker p s'
       end.

(** The text before the first case-insensitive occurrence of [sep], or
    all of it. *)
Fixpoint upTo (sep s : jsstring) : jsstring :=
  if ciStartsWith sep s then []
  else match s with
       | [] => []
       | c :: s' => c :: upTo sep s'
       end.

(** The shortest prefix of [s] after which [ok] holds of what is left;
    all of [s] if it never does. This is what a lazy [[\s\S]*?]
    captures in front of a test of the remaining input. *)
Fixpoint lazyPrefix (ok : jsstring -> bool) (s : jsstring) : jsstring :=
  if ok s then []
  else match s with
       | [] => []
       | c :: s' => c :: lazyPrefix ok s'
       end.

Definition FeedbackMarker : jsstring := lit "Feedback:".
Definition CorrectedMarker : jsstring := lit "Corrected:".
Definition LF : N := 10.

(** The parsing policy as the specification words it: the feedback is
    the trimmed text between the "Feedback:" marker and the next
    "Corrected:" marker (or the end of the text), the corrected text the
    trimmed text from the "Corrected:" marker to the end. *)
Definition spec_feedback (aiText : jsstring) : option jsstring :=
  match afterMarker FeedbackMarker aiText with
  | Some a => Some (trim (upTo CorrectedMarker a))
  | None => None
  end.

Definition spec_correctedText (aiText : jsstring) : option jsstring :=
  match afterMarker CorrectedMarker aiText with
  | Some a => Some (trim a)
  | None => None
  end.

(** The feedback as the pattern of the handler takes it: the white
    space after the marker is skipped first, and the capture then runs
    to the next "Corrected:" that follows a line feed. *)
Definition lineStart_feedback (aiText : jsstring) : option jsstring :=
  match afterMarker FeedbackMarker aiText with
  | Some a => Some (trim (upTo (LF :: CorrectedMarker) (trimStart a)))
  | None => None
  end.

End Policy.

Export Policy.

(* ===================================================================== *)
(** * The claims as the specification states them, and sample runs        *)
(* ===================================================================== *)

Module Stated.

(** The testable property of the parsing policy, read literally: with
    both markers in the model's answer, the stored feedback is the
    trimmed text between "Feedback:" and the next "Corrected:", and the
    stored corrected text the trimmed text after "Corrected:". *)
Definition sections_as_specified
    (host : Host) (cfg : Config) (req : Request) (s : State) : Prop :=
  forall g fb ct,
    status (fst (analyzeSpeech host cfg req s)) = 200 ->
    gemini req = Fulfilled g ->
    spec_feedback (orEmpty g) = Some fb ->
    spec_correctedText (orEmpty g) = Some ct ->
    exists r,
      analysisResults (snd (analyzeSpeech host cfg req s))
        !! newAnalysisId req = Some r
      /\ feedback r = fb /\ correctedText r = ct.


(** The reach of the feedback capture, read literally: every
    "Corrected:" of the answer that does not follow a line feed is,
    letter for letter, inside the feedback that is stored. *)
Definition inline_marker_kept (t aiText : jsstring) : Prop :=
  forall y occ,
    aiText = y ++ occ ->
    ciStartsWith CorrectedMarker occ = true ->
    last y <> Some LF ->
    exists p s ct,
      parseAnalysis t aiText = Fulfilled (p ++ take 10 occ ++ s, ct).

(** Retrieval inside the retention window, read literally: right after
    a successful run both the record and its audio can be fetched. *)
Definition retrievable_after_insert
    (host : Host) (cfg : Config) (req : Request) (s : State) : Prop :=
  status (fst (analyzeSpeech host cfg req s)) = 200 ->
  status (getAnalysis (newAnalysisId req)
            (snd (analyzeSpeech host cfg req s))) = 200
  /\ status (download (newAnalysisId req)
               (snd (analyzeSpeech host cfg req s))) = 200.

End Stated.

Export Stated.

Module Examples.

Definition cfg0 : Config :=
  {| cwd := lit "/app"; dirname := lit "/app"; NODE_ENV := None |}.

Definition cfgDev : Config :=
  {| cwd := lit "/app"; dirname := lit "/app";
     NODE_ENV := Some (lit "development") |}.

(** A running server with one upload on disk and nothing stored. *)
Definition s0 : State :=
  {| analysisResults := ∅; timers := [];
     files := {[ lit "/app/uploads/u1" := [82; 73; 70; 70] ]};
     clock := 1000 |}.

Definition upload1 : UploadedFile :=
  {| path := lit "uploads/u1"; mimetype := Some (lit "audio/wav") |}.

Definition heard (t : option jsstring) : outcome (option DeepgramData) :=
  Fulfilled (Some {| results := Some {| channels := Some
    [ {| alternatives := Some [ {| alt_transcript := t |} ] |} ] |} |}).

Definition mp3 : list N := [73; 68; 51].

Definition request (t : option jsstring)
    (answer : outcome (option jsstring)) (synth : jsstring -> TtsOutcome)
  : Request :=
  {| file := Some upload1;
     deepgram := heard t;
     gemini := answer;
     date_now := 1700000000000;
     random36 := lit "0.4fzyo82mvyr";
     tts := synth;
     iso_now := lit "2023-11-14T22:13:20.000Z" |}.

Definition said : option jsstring := Some (lit "he go to school yesterday").

(** The example of the specification: both sections, the corrected one
    on a line of its own. *)
Definition answerTwoLines : jsstring :=
  lit "Feedback: Watch subject-verb agreement and past tense."
  ++ [10] ++ lit "Corrected: He went to school yesterday.".

Definition reqTwoLines : Request :=
  request said (Fulfilled (Some answerTwoLines)) (fun _ => TtsSaved mp3).

(** Both sections on one line. *)
Definition answerOneLine : jsstring :=
  lit "Feedback: good. Corrected: He went.".

Definition reqOneLine : Request :=
  request said (Fulfilled (Some answerOneLine)) (fun _ => TtsSaved mp3).

(** An answer without either marker. *)
Definition reqNoMarkers : Request :=
  request said (Fulfilled (Some (lit "Looks fine to me.")))
    (fun _ => TtsSaved mp3).

(** A synthesizer that behaves as gtts does on the empty text and
    writes [bytes] for any other. *)
Definition noTextToSpeak : JsError :=
  {| code := None; message := lit "No text to speak";
     response_status := None |}.

Definition gttsLike (bytes : list N) : jsstring -> TtsOutcome :=
  fun text => if isEmpty text then TtsThrows noTextToSpeak
              else TtsSaved bytes.

Definition reqStrict : Request :=
  request said (Fulfilled (Some answerTwoLines)) (gttsLike mp3).

(** A "Corrected:" section with nothing in it. *)
Definition reqEmptyCorrected : Request :=
  request said (Fulfilled (Some (lit "Feedback: fine" ++ [10]
                                 ++ lit "Corrected:")))
    (gttsLike mp3).

(** The synthesizer creates the file and then reports an error. *)
Definition reqTtsFails : Request :=
  request said (Fulfilled (Some answerTwoLines))
    (fun _ => TtsError (Some [73])).

(** The synthesizer reports success and leaves an empty file. *)
Definition reqEmptyAudio : Request :=
  request said (Fulfilled (Some answerTwoLines)) (fun _ => TtsSaved []).

(** Silence: the transcription comes back as white space. *)
Definition reqSilence : Request :=
  request (Some (lit "  ")) (Fulfilled None) (fun _ => TtsSaved mp3).


Definition axios401 : JsError :=
  {| code := Some (lit "ERR_BAD_REQUEST");
     message := lit "Request failed with status code 401";
     response_status := Some 401 |}.


(** A connection that timed out at socket level. *)
Definition socketTimedOut : JsError :=
  {| code := Some (lit "ETIMEDOUT");
     message := lit "connect ETIMEDOUT 104.18.2.1:443";
     response_status := None |}.


Definition rejecting (e : JsError) : Request :=
  {| file := Some upload1; deepgram := Rejected e;
     gemini := Fulfilled None; date_now := 1700000000000;
     random36 := lit "0.4fzyo82mvyr"; tts := fun _ => TtsSaved mp3;
     iso_now := [] |}.

(** Two "Corrected:" after the feedback: one on a line of its own, one
    further on in that line. *)
Definition answerTwoMarkers : jsstring :=
  lit "Feedback: a" ++ [10] ++ lit "Corrected: b Corrected: c".

(** A "Corrected:" before the feedback section and one inside it. *)
Definition answerMarkerFirst : jsstring :=
  lit "Corrected: x" ++ [10] ++ lit "Feedback: good. Corrected: He went.".

(** One hour and a bit: the hour passes, the timer runs within the
    slack, time goes on. *)
Definition oneHour : list event :=
  [Elapse 3599999; Elapse 1; Elapse 20; Fire 0; Elapse 31].

End Examples.

(* ===================================================================== *)
(** * Shapes and invariants of the running server                         *)
(* ===================================================================== *)

Module Invariants.

(** The state at start-up (line 32): [new Map()], no timer yet. *)
Definition boot (fs : gmap jsstring (list N)) (now : N) : State :=
  {| analysisResults := ∅; timers := []; files := fs; clock := now |}.

(** A Deepgram answer on which the optional chain of line 113 indexes
    [undefined]: [results] is there, and [channels] is missing or the
    first channel has no [alternatives]. *)
Definition malformed (data : option DeepgramData) : Prop :=
  exists d r,
    data = Some d /\ results d = Some r
    /\ (channels r = None
        \/ exists chs ch,
             channels r = Some chs /\ head chs = Some ch
             /\ alternatives ch = None).

(** The status and [error] code of every error response the handler
    sends (lines 81, 117, 235, 242, 248). *)
Definition errorKinds : list (N * jsstring) :=
  [ (400, lit "No audio file uploaded");
    (400, lit "No speech detected");
    (408, lit "Request timeout");
    (500, lit "API authentication failed");
    (500, lit "Analysis failed") ].

(** Lines 268-274: the error-handling middleware. Express runs it when
    a middleware hands an error to [next]: [express.json()] of line 28
    does so on a JSON body that does not parse, [upload.single('audio')]
    of line 78 when multer rejects the upload (a file above the limit of
    line 16, a file field of another name). The answer does not depend on
    the error. *)
Definition errorHandler (err : JsError) : Response :=
  jsonError 500 "Internal server error"
    "Something went wrong. Please try again.".

(** The response of the route of line 78 as a whole: the middlewares in
    front of the callback first, which either hand over an error or let
    the request through, then the callback. *)
Definition routeResponse (host : Host) (cfg : Config)
    (middlewareError : option JsError) (req : Request) (s : State)
    : Response :=
  match middlewareError with
  | Some err => errorHandler err
  | None => fst (analyzeSpeech host cfg req s)
  end.

(** The pairs of [errorKinds] and that of the error handler. *)
Definition routeErrorKinds : list (N * jsstring) :=
  errorKinds ++ [ (500, lit "Internal server error") ].

(** A stored record sits under its own id, was made from a transcript
    that is not blank, and carries a feedback without white space at
    either end. *)
Definition record_wf (k : jsstring) (r : ResultRecord) : Prop :=
  rid r = k
  /\ noSpeech (Some (transcript r)) = false
  /\ trim (feedback r) = feedback r.

Definition store_wf (s : State) : Prop :=
  forall k r, analysisResults s !! k = Some r -> record_wf k r.

(** Every stored record has a timer pending for its id; every pending
    timer is due within the retention window from now, and is not
    overdue by more than [slack]. *)
Definition timers_wf (slack : N) (s : State) : Prop :=
  (forall k, is_Some (analysisResults s !! k) ->
             exists due, (due, k) ∈ timers s)
  /\ Forall (fun tm => fst tm <= clock s + retention
                       /\ clock s <= fst tm + slack) (timers s).

(** [m] changes no file outside [ks]. *)
Definition touches {A} (ks : list jsstring) (m : M A) : Prop :=
  forall s fl s' q,
    m s = (fl, s') -> q ∉ ks -> files s' !! q = files s !! q.

End Invariants.

Export Invariants.

Module MoreExamples.

Import Examples.

(** A Deepgram body with [results] but no [channels]. *)
Definition noChannels : option DeepgramData :=
  Some {| results := Some {| channels := None |} |}.

Definition reqNoChannels : Request :=
  {| file := Some upload1; deepgram := Fulfilled noChannels;
     gemini := Fulfilled None; date_now := 1700000000000;
     random36 := lit "0.4fzyo82mvyr"; tts := fun _ => TtsSaved mp3;
     iso_now := [] |}.

(** The model call answers without any text. *)
Definition reqNoAnswer : Request :=
  request said (Fulfilled None) (fun _ => TtsSaved mp3).

(** A transcript of 120 characters. *)
Definition longTranscript : jsstring := repeat 97 120.

Definition reqLong : Request :=
  request (Some longTranscript) (Fulfilled None) (fun _ => TtsSaved mp3).

(** The same request a millisecond later, with another random part. *)
Definition reqLater : Request :=
  {| file := Some upload1; deepgram := heard said;
     gemini := Fulfilled (Some answerTwoLines);
     date_now := 1700000000001; random36 := lit "0.9zzk1m2abcd";
     tts := fun _ => TtsSaved mp3;
     iso_now := lit "2023-11-14T22:13:20.001Z" |}.

(** A second upload, and a request for it that happens to get the id
    of [reqTwoLines]. *)
Definition upload2 : UploadedFile :=
  {| path := lit "uploads/u2"; mimetype := Some (lit "audio/wav") |}.

Definition twoUploads : gmap jsstring (list N) :=
  {[ lit "/app/uploads/u1" := [82; 73; 70; 70];
     lit "/app/uploads/u2" := [82; 73; 70; 70] ]}.

Definition reqAgain : Request :=
  {| file := Some upload2; deepgram := heard said;
     gemini := Fulfilled (Some answerOneLine);
     date_now := 1700000000000; random36 := lit "0.4fzyo82mvyr";
     tts := fun _ => TtsSaved mp3;
     iso_now := lit "2023-11-14T22:43:20.000Z" |}.

(** Half an hour after [reqTwoLines] was handled on a fresh server. *)
Definition halfAnHourLater : State :=
  match run asciiHost cfg0 50 (boot twoUploads 1000)
          [Post reqTwoLines; Elapse 1800000] with
  | Some (s, _) => s
  | None => boot twoUploads 1000
  end.

(** A day in the life of the server: two requests, the hour, the
    timers. *)
Definition busyHour : list event :=
  [Post reqTwoLines; Elapse 1800000; Post reqAgain; Elapse 1800000;
   Fire 0; Elapse 40].

(** An empty feedback section: only a line feed between the markers. *)
Definition answerEmptyFeedback : jsstring :=
  lit "Feedback:" ++ [10] ++ lit "Corrected: He went.".

End MoreExamples.

(* ===================================================================== *)
(** * Facts about strings                                                 *)
(* ===================================================================== *)

Section StringFacts.

Lemma trimStart_length s : (length (trimStart s) <= length s)%nat.
Proof.
  induction s as [|c s IH]; simpl; [lia|].
  destruct (isStrWhiteSpaceChar c); simpl; lia.
Qed.

Lemma trimStart_idem s : trimStart (trimStart s) = trimStart s.
Proof.
  induction s as [|c s IH]; simpl; [reflexivity|].
  destruct (isStrWhiteSpaceChar c) eqn:E; [exact IH|].
  simpl. now rewrite E.
Qed.

Lemma trim_trimStart s : trim (trimStart s) = trim s.
Proof. unfold trim. now rewrite trimStart_idem. Qed.

Lemma lazyPrefix_length ok s : (length (lazyPrefix ok s) <= length s)%nat.
Proof.
  induction s as [|c s IH]; simpl; destruct (ok _); simpl; lia.
Qed.

Lemma lazyPrefix_take ok s : take (length (lazyPrefix ok s)) s = lazyPrefix ok s.
Proof.
  induction s as [|c s IH]; simpl.
  - now destruct (ok []).
  - destruct (ok (c :: s)); simpl; [reflexivity|]. now rewrite IH.
Qed.

Lemma lazyPrefix_before ok s k :
  (k < length (lazyPrefix ok s))%nat -> ok (drop k s) = false.
Proof.
  revert k. induction s as [|c s IH]; intros k; simpl.
  - destruct (ok []); simpl; lia.
  - destruct (ok (c :: s)) eqn:E; simpl; [lia|].
    destruct k as [|k]; simpl; [now rewrite E|].
    intros H. apply IH. lia.
Qed.

Lemma lazyPrefix_after ok s :
  ok [] = true -> ok (drop (length (lazyPrefix ok s)) s) = true.
Proof.
  intros Hnil. induction s as [|c s IH]; simpl.
  - rewrite Hnil. exact Hnil.
  - destruct (ok (c :: s)) eqn:E; simpl; [exact E | exact IH].
Qed.

Lemma lazyPrefix_split ok s :
  s = lazyPrefix ok s ++ drop (length (lazyPrefix ok s)) s.
Proof.
  symmetry. rewrite <- (lazyPrefix_take ok s) at 1. apply take_drop.
Qed.

Lemma lazyPrefix_isEmpty s : lazyPrefix isEmpty s = s.
Proof. induction s as [|c s IH]; simpl; [reflexivity | now rewrite IH]. Qed.

Lemma ciStartsWith_nil_r p : ciStartsWith p [] = isEmpty p.
Proof. now destruct p. Qed.

Lemma upTo_lazyPrefix q s :
  upTo q s = lazyPrefix (fun r => ciStartsWith q r || isEmpty r) s.
Proof.
  induction s as [|c s IH]; simpl.
  - rewrite orb_true_r. now destruct (ciStartsWith q []).
  - rewrite orb_false_r. destruct (ciStartsWith q (c :: s)); [reflexivity|].
    now rewrite IH.
Qed.

End StringFacts.

(* ===================================================================== *)
(** * The matcher on the two patterns                                     *)
(* ===================================================================== *)

Section MatcherFacts.

Local Abbreviation St := Build_MatchState.
Local Abbreviation WS := (CharacterSetMatcher (classMatches [ClassEscape_s])).
Local Abbreviation ANY :=
  (CharacterSetMatcher (classMatches [ClassEscape_s; ClassEscape_S])).

Lemma classMatches_s ch : classMatches [ClassEscape_s] ch = isStrWhiteSpaceChar ch.
Proof. unfold classMatches; simpl. now rewrite orb_false_r. Qed.

Lemma classMatches_any ch : classMatches [ClassEscape_s; ClassEscape_S] ch = true.
Proof. unfold classMatches; simpl. now destruct (isStrWhiteSpaceChar ch). Qed.

(** A literal matches exactly the case-insensitive prefix. *)
Lemma RLit_matcher p : forall i s caps c,
  CompileSubpattern flags_i (RLit p) (St i s caps) c =
  if ciStartsWith p s
  then c (St (length p + i) (drop (length p) s) caps) else None.
Proof.
  induction p as [|a p IH]; intros i s caps c.
  - simpl. now destruct s.
  - cbn [RLit CompileSubpattern]. unfold CharacterSetMatcher at 1.
    cbn [rest endIndex captures].
    destruct s as [|b s]; [reflexivity|].
    cbn [ciStartsWith]. unfold Canonicalize; cbn [ignoreCase flags_i].
    destruct (asciiUpper b =? asciiUpper a); cbn [andb]; [|reflexivity].
    rewrite IH. cbn [length drop].
    now replace (length p + S i)%nat with (S (length p + i))%nat by lia.
Qed.

(** Greedy [\s*]: when what follows accepts the input after the whole
    run of white space, that is the match. *)
Lemma greedy_ws : forall s fuel i caps c z,
  (length s < fuel)%nat ->
  c (St (i + (length s - length (trimStart s))) (trimStart s) caps) = Some z ->
  RepeatMatcher fuel WS true (St i s caps) c = Some z.
Proof.
  induction s as [|ch s IH]; intros fuel i caps c z Hf Hc;
    (destruct fuel as [|fuel]; [simpl in Hf; lia|]).
  - cbn [RepeatMatcher]. unfold CharacterSetMatcher at 1. cbn [rest].
    simpl in Hc. now rewrite Nat.add_0_r in Hc.
  - cbn [RepeatMatcher]. unfold CharacterSetMatcher at 1.
    cbn [rest endIndex captures]. rewrite classMatches_s.
    cbn [trimStart] in Hc.
    destruct (isStrWhiteSpaceChar ch) eqn:E.
    + replace (Nat.eqb (S i) i) with false
        by (symmetry; apply Nat.eqb_neq; lia).
      rewrite (IH fuel (S i) caps c z); [reflexivity | simpl in Hf; lia |].
      pose proof (trimStart_length s).
      replace (S i + (length s - length (trimStart s)))%nat
        with (i + (length (ch :: s) - length (trimStart s)))%nat
        by (simpl; lia).
      exact Hc.
    + replace (i + (length (ch :: s) - length (ch :: s)))%nat with i in Hc
        by lia.
      exact Hc.
Qed.

(** Lazy [[\s\S]*?]: the first position at which what follows accepts. *)
Lemma lazy_any : forall n s fuel i caps c z,
  (length s < fuel)%nat -> (n <= length s)%nat ->
  (forall k, (k < n)%nat -> c (St (i + k) (drop k s) caps) = None) ->
  c (St (i + n) (drop n s) caps) = Some z ->
  RepeatMatcher fuel ANY false (St i s caps) c = Some z.
Proof.
  induction n as [|n IH]; intros s fuel i caps c z Hf Hn Hk Hc;
    (destruct fuel as [|fuel]; [lia|]).
  - cbn [RepeatMatcher]. rewrite Nat.add_0_r, drop_0 in Hc.
    now rewrite Hc.
  - destruct s as [|ch s]; [simpl in Hn; lia|].
    cbn [RepeatMatcher].
    pose proof (Hk 0%nat ltac:(lia)) as H0.
    rewrite Nat.add_0_r, drop_0 in H0. rewrite H0.
    unfold CharacterSetMatcher at 1. cbn [rest endIndex captures].
    rewrite classMatches_any.
    replace (Nat.eqb (S i) i) with false
      by (symmetry; apply Nat.eqb_neq; lia).
    apply IH.
    + simpl in Hf; lia.
    + simpl in Hn; lia.
    + intros k Hlt. specialize (Hk (S k) ltac:(lia)).
      now replace (i + S k)%nat with (S i + k)%nat in Hk by lia.
    + now replace (i + S n)%nat with (S i + n)%nat in Hc by lia.
Qed.

(** The lookahead [(?=q|$)] and the assertion [$] test the remaining
    input and consume nothing. *)
Lemma lookahead_tests q :
  tests (CompileSubpattern flags_i (RLookahead (RAlt (RLit q) REnd)))
        (fun s => ciStartsWith q s || isEmpty s).
Proof.
  intros i s caps c. cbn [CompileSubpattern]. rewrite RLit_matcher.
  cbn [rest endIndex captures].
  destruct (ciStartsWith q s); cbn [orb captures]; [reflexivity|].
  now destruct s.
Qed.

Lemma end_tests : tests (CompileSubpattern flags_i REnd) isEmpty.
Proof. intros i s caps c. cbn [CompileSubpattern rest]. now destruct s. Qed.

(** The shape shared by both patterns, tried at one start position. *)
Lemma pattern_at p tail ok i s :
  tests (CompileSubpattern flags_i tail) ok -> ok [] = true ->
  exists j r,
    CompileSubpattern flags_i
      (RSeq (RLit p)
      (RSeq (RStar true (RClass [ClassEscape_s]))
      (RSeq (RGroup 1 (RStar false (RClass [ClassEscape_s; ClassEscape_S])))
            tail)))
      (St i s []) Some
    = if ciStartsWith p s
      then Some (St j r
                   [(1%nat, lazyPrefix ok (trimStart (drop (length p) s)))])
      else None.
Proof.
  intros Htail Hnil.
  cbn [CompileSubpattern]. rewrite RLit_matcher.
  destruct (ciStartsWith p s); [|now exists 0%nat, []].
  cbn [rest].
  set (s1 := drop (length p) s). set (t := trimStart s1).
  set (pre := lazyPrefix ok t).
  eexists _, _. apply greedy_ws; [lia|]. fold t.
  cbn [rest].
  apply (lazy_any (length pre)); [lia | apply lazyPrefix_length | |].
  - intros k Hk. cbn [endIndex rest]. unfold setCapture.
    cbn [endIndex rest captures]. rewrite Htail.
    unfold pre in Hk. now rewrite (lazyPrefix_before ok t k Hk).
  - cbn [endIndex rest]. unfold setCapture. cbn [endIndex rest captures].
    rewrite Htail. unfold pre. rewrite (lazyPrefix_after ok t Hnil).
    match goal with |- context [take ?a t] =>
      replace a with (length (lazyPrefix ok t)) by lia end.
    rewrite lazyPrefix_take. reflexivity.
Qed.

Lemma findStart_pattern p tail ok :
  tests (CompileSubpattern flags_i tail) ok -> ok [] = true ->
  forall s i,
    match afterMarker p s with
    | None =>
        findStart (CompileSubpattern flags_i
          (RSeq (RLit p)
          (RSeq (RStar true (RClass [ClassEscape_s]))
          (RSeq (RGroup 1 (RStar false (RClass [ClassEscape_s; ClassEscape_S])))
                tail)))) i s = None
    | Some a =>
        exists i' s' y,
          findStart (CompileSubpattern flags_i
            (RSeq (RLit p)
            (RSeq (RStar true (RClass [ClassEscape_s]))
            (RSeq (RGroup 1 (RStar false (RClass [ClassEscape_s; ClassEscape_S])))
                  tail)))) i s = Some (i', s', y)
          /\ captures y = [(1%nat, lazyPrefix ok (trimStart a))]
    end.
Proof.
  intros Htail Hnil.
  induction s as [|ch s IH]; intros i.
  - destruct (pattern_at p tail ok i [] Htail Hnil) as (j & r & E).
    cbn [afterMarker findStart]. rewrite E.
    destruct (ciStartsWith p []); [|reflexivity].
    eexists _, _, _. split; reflexivity.
  - destruct (pattern_at p tail ok i (ch :: s) Htail Hnil) as (j & r & E).
    cbn [afterMarker findStart]. rewrite E.
    destruct (ciStartsWith p (ch :: s)).
    + eexists _, _, _. split; reflexivity.
    + apply IH.
Qed.

(** What [aiText.match(...)] returns for the feedback pattern. *)
Lemma match_feedbackRegExp aiText :
  match afterMarker FeedbackMarker aiText with
  | None => String_match aiText feedbackRegExp flags_i = None
  | Some a =>
      exists m, String_match aiText feedbackRegExp flags_i = Some m
        /\ group 1 (groups m)
           = Some (upTo (LF :: CorrectedMarker) (trimStart a))
  end.
Proof.
  pose proof (findStart_pattern FeedbackMarker _ _
                (lookahead_tests (LF :: CorrectedMarker)) eq_refl aiText 0%nat)
    as H.
  unfold String_match, feedbackRegExp.
  change (lit "Feedback:") with FeedbackMarker.
  change (10 :: lit "Corrected:") with (LF :: CorrectedMarker).
  destruct (afterMarker FeedbackMarker aiText) as [a|].
  - destruct H as (i' & s' & y & -> & Hc). eexists. split; [reflexivity|].
    cbn [groups]. rewrite Hc. cbn [group Nat.eqb].
    now rewrite upTo_lazyPrefix.
  - now rewrite H.
Qed.

(** What [aiText.match(...)] returns for the corrected-text pattern. *)
Lemma match_correctedRegExp aiText :
  match afterMarker CorrectedMarker aiText with
  | None => String_match aiText correctedRegExp flags_i = None
  | Some a =>
      exists m, String_match aiText correctedRegExp flags_i = Some m
        /\ group 1 (groups m) = Some (trimStart a)
  end.
Proof.
  pose proof (findStart_pattern CorrectedMarker _ _ end_tests eq_refl
                aiText 0%nat) as H.
  unfold String_match, correctedRegExp.
  change (lit "Corrected:") with CorrectedMarker.
  destruct (afterMarker CorrectedMarker aiText) as [a|].
  - destruct H as (i' & s' & y & -> & Hc). eexists. split; [reflexivity|].
    cbn [groups]. rewrite Hc. cbn [group Nat.eqb].
    now rewrite lazyPrefix_isEmpty.
  - now rewrite H.
Qed.

End MatcherFacts.

(* ===================================================================== *)
(** * The handler, stage by stage                                         *)
(* ===================================================================== *)

Section FlowFacts.

Context {A B : Type}.

Lemma bind_Next (m : M A) (k : A -> M B) s b s' :
  bind m k s = (Next b, s') ->
  exists a s1, m s = (Next a, s1) /\ k a s1 = (Next b, s').
Proof.
  unfold bind. destruct (m s) as [[a|r|e] s1]; intros H; try discriminate.
  now exists a, s1.
Qed.

Lemma bind_Reply (m : M A) (k : A -> M B) s r s' :
  bind m k s = (Reply r, s') ->
  m s = (Reply r, s')
  \/ exists a s1, m s = (Next a, s1) /\ k a s1 = (Reply r, s').
Proof.
  unfold bind. destruct (m s) as [[a|r0|e] s1]; intros H; try discriminate.
  - right. now exists a, s1.
  - left. congruence.
Qed.

Lemma bind_frames (m : M A) (k : A -> M B) :
  frames m -> (forall a, frames (k a)) -> frames (bind m k).
Proof.
  intros Hm Hk s fl s'. unfold bind.
  destruct (m s) as [[a|r|e] s1] eqn:E; intros H.
  - destruct (Hm _ _ _ E) as (H1 & H2 & H3).
    destruct (Hk a _ _ _ H) as (H4 & H5 & H6).
    unfold same_store. rewrite H4, H5, H6. auto.
  - injection H as <- <-. exact (Hm _ _ _ E).
  - injection H as <- <-. exact (Hm _ _ _ E).
Qed.

Lemma await_Next (o : outcome A) s a s' :
  await o s = (Next a, s') -> o = Fulfilled a /\ s' = s.
Proof. unfold await. destruct o; intros H; now inversion H. Qed.

Lemma awaitS_Next (f : State -> outcome A * State) s a s' :
  awaitS f s = (Next a, s') -> f s = (Fulfilled a, s').
Proof.
  unfold awaitS. destruct (f s) as [[x|e] s1]; intros H; now inversion H.
Qed.

Lemma await_Reply (o : outcome A) s r s' : await o s <> (Reply r, s').
Proof. unfold await. now destruct o. Qed.

Lemma awaitS_Reply (f : State -> outcome A * State) s r s' :
  awaitS f s <> (Reply r, s').
Proof. unfold awaitS. now destruct (f s) as [[x|e] s1]. Qed.

Lemma await_frames (o : outcome A) : frames (await o).
Proof.
  intros s fl s'. unfold await.
  destruct o; intros H; inversion H; subst; repeat split.
Qed.

Lemma awaitS_frames (f : State -> outcome A * State) :
  (forall s, same_store s (snd (f s))) -> frames (awaitS f).
Proof.
  intros Hf s fl s'. unfold awaitS. specialize (Hf s).
  destruct (f s) as [[x|e] s1]; intros H; inversion H; subst; exact Hf.
Qed.

Lemma reply_frames r : frames (@reply A r).
Proof. intros s fl s' H. inversion H; subst. repeat split. Qed.

Lemma ret_frames (a : A) : frames (ret a).
Proof. intros s fl s' H. inversion H; subst. repeat split. Qed.

End FlowFacts.

Section FsFacts.

Context (cfg : Config).

Lemma same_store_refl s : same_store s s.
Proof. repeat split. Qed.

Lemma setFiles_same fs s : same_store s (setFiles fs s).
Proof. repeat split. Qed.

Lemma fs_unlink_same p s : same_store s (snd (fs_unlink cfg p s)).
Proof.
  unfold fs_unlink. destruct (files s !! _); [apply setFiles_same|].
  apply same_store_refl.
Qed.

Lemma tts_save_same o p s : same_store s (snd (tts_save cfg o p s)).
Proof.
  unfold tts_save. destruct o as [b|[b|]|e]; simpl;
    auto using setFiles_same, same_store_refl.
Qed.

Lemma fs_unlink_gone p s s' :
  fs_unlink cfg p s = (Fulfilled tt, s') ->
  files s' !! path_resolve cfg p = None.
Proof.
  unfold fs_unlink. destruct (files s !! _); intros H; inversion H; subst.
  simpl. apply lookup_delete_eq.
Qed.

Lemma fs_unlink_keeps p q s :
  path_resolve cfg p <> q ->
  files (snd (fs_unlink cfg p s)) !! q = files s !! q.
Proof.
  intros Hne. unfold fs_unlink.
  destruct (files s !! path_resolve cfg p); [|reflexivity].
  cbn [snd setFiles files]. now apply lookup_delete_ne.
Qed.

End FsFacts.

Section HandlerFacts.

Context (host : Host) (cfg : Config).

(** Nothing before line 203 touches the result map, the timers or the
    clock. *)
Lemma stages_frames req : frames (stages cfg req).
Proof.
  unfold stages. destruct (file req) as [f|]; [|apply reply_frames].
  apply bind_frames; [apply awaitS_frames; intros; apply same_store_refl|].
  intros _. apply bind_frames; [apply await_frames|]. intros data.
  apply bind_frames; [apply awaitS_frames, fs_unlink_same|]. intros _.
  apply bind_frames; [apply await_frames|]. intros t.
  destruct (noSpeech t); [apply reply_frames|].
  apply bind_frames; [apply await_frames|]. intros g.
  apply bind_frames; [apply await_frames|]. intros parsed.
  apply bind_frames; [apply awaitS_frames, tts_save_same|]. intros _.
  apply bind_frames; [apply awaitS_frames; intros; apply same_store_refl|].
  intros bytes.
  apply bind_frames; [apply awaitS_frames, fs_unlink_same|]. intros _.
  apply ret_frames.
Qed.

(** The only early [return res...] are the two 400 responses. *)
Lemma stages_Reply req s r s' :
  stages cfg req s = (Reply r, s') -> status r = 400.
Proof.
  unfold stages. destruct (file req) as [f|].
  2: { intros H. now inversion H. }
  intros H.
  apply bind_Reply in H as [H|(? & s1 & _ & H)]; [now apply awaitS_Reply in H|].
  apply bind_Reply in H as [H|(data & s2 & _ & H)]; [now apply await_Reply in H|].
  apply bind_Reply in H as [H|(? & s3 & _ & H)]; [now apply awaitS_Reply in H|].
  apply bind_Reply in H as [H|(t & s4 & _ & H)]; [now apply await_Reply in H|].
  destruct (noSpeech t); [now inversion H|].
  apply bind_Reply in H as [H|(g & s5 & _ & H)]; [now apply await_Reply in H|].
  apply bind_Reply in H as [H|(pa & s6 & _ & H)]; [now apply await_Reply in H|].
  apply bind_Reply in H as [H|(? & s7 & _ & H)]; [now apply awaitS_Reply in H|].
  apply bind_Reply in H as [H|(b & s8 & _ & H)]; [now apply awaitS_Reply in H|].
  apply bind_Reply in H as [H|(? & s9 & _ & H)]; [now apply awaitS_Reply in H|].
  inversion H.
Qed.

(** What a run that reaches line 193 went through. *)
Lemma stages_Next req s result s' :
  stages cfg req s = (Next result, s') ->
  exists f data t g bytes,
    file req = Some f
    /\ deepgram req = Fulfilled data
    /\ extractTranscript data = Fulfilled (Some t)
    /\ noSpeech (Some t) = false
    /\ gemini req = Fulfilled g
    /\ parseAnalysis t (orEmpty g)
       = Fulfilled (feedback result, correctedText result)
    /\ tts req (correctedText result) = TtsSaved bytes
    /\ result = {| rid := newAnalysisId req; transcript := t;
                   feedback := feedback result;
                   correctedText := correctedText result;
                   audio := toString_base64 bytes;
                   timestamp := iso_now req |}
    /\ files s' !! path_resolve cfg (correctedAudioPathOf cfg req) = None.
Proof.
  unfold stages. destruct (file req) as [f|]; [|intros H; inversion H].
  intros H.
  apply bind_Next in H as (buf & s1 & _ & H).
  apply bind_Next in H as (data & s2 & Hd & H).
  apply await_Next in Hd as [Hd _].
  apply bind_Next in H as (? & s3 & _ & H).
  apply bind_Next in H as (t & s4 & Ht & H).
  apply await_Next in Ht as [Ht _].
  destruct (noSpeech t) eqn:Hns; [inversion H|].
  destruct t as [t|]; [|discriminate Hns].
  apply bind_Next in H as (g & s5 & Hg & H).
  apply await_Next in Hg as [Hg _].
  apply bind_Next in H as ([fb ct] & s6 & Hp & H).
  apply await_Next in Hp as [Hp _].
  apply bind_Next in H as (? & s7 & Hsave & H).
  apply awaitS_Next in Hsave.
  apply bind_Next in H as (bytes & s8 & Hread & H).
  apply awaitS_Next in Hread.
  apply bind_Next in H as ([] & s9 & Hul & H).
  apply awaitS_Next in Hul.
  inversion H; subst; clear H. cbn [feedback correctedText fst snd] in *.
  simpl in Hp.
  unfold tts_save in Hsave.
  destruct (tts req ct) as [b|partial|e] eqn:Htts;
    [|discriminate Hsave|discriminate Hsave].
  inversion Hsave; subst s7; clear Hsave.
  unfold fs_readFile in Hread. simpl in Hread.
  rewrite lookup_insert_eq in Hread. inversion Hread; subst; clear Hread.
  exists f, data, t, g, bytes.
  repeat split; auto. eapply fs_unlink_gone; eauto.
Qed.

Lemma errorResponse_status e : status (errorResponse cfg e) <> 200.
Proof.
  unfold errorResponse.
  destruct (isTimeout e); [discriminate|].
  destruct (bool_decide _); discriminate.
Qed.

Lemma catchBlock_same req e s :
  same_store s (snd (catchBlock cfg req e s)).
Proof.
  unfold catchBlock; simpl.
  destruct (file req); [apply fs_unlink_same | apply same_store_refl].
Qed.

(** A request either fails and leaves the result map and the timers as
    they were, or it went through all stages and lines 203-207 ran. *)
Lemma analyzeSpeech_inv req s resp s' :
  analyzeSpeech host cfg req s = (resp, s') ->
  clock s' = clock s /\
  ((status resp <> 200
    /\ analysisResults s' = analysisResults s /\ timers s' = timers s)
   \/ (exists result s1,
         stages cfg req s = (Next result, s1)
         /\ resp = successResponse host result
         /\ analysisResults s'
            = <[rid result := result]> (analysisResults s)
         /\ timers s' = timers s ++ [(clock s + retention, rid result)]
         /\ files s' = files s1)).
Proof.
  unfold analyzeSpeech, tryBlock, bind.
  destruct (stages cfg req s) as [[result|r|e] s1] eqn:E.
  - destruct (stages_frames req _ _ _ E) as (H1 & H2 & H3).
    unfold storeResult, reply. intros H. inversion H; subst; clear H.
    cbn [clock analysisResults timers files]. split; [exact H3|].
    right. exists result, s1. rewrite H1, H2, H3. auto.
  - destruct (stages_frames req _ _ _ E) as (H1 & H2 & H3).
    intros H. inversion H; subst; clear H. split; [exact H3|]. left.
    rewrite (stages_Reply _ _ _ _ E). repeat split; auto; discriminate.
  - destruct (stages_frames req _ _ _ E) as (H1 & H2 & H3).
    intros H.
    destruct (catchBlock_same req e s1) as (H4 & H5 & H6).
    unfold catchBlock in *. inversion H; subst; clear H.
    cbn [snd] in *. split; [congruence|]. left.
    split; [apply errorResponse_status|]. split; congruence.
Qed.

Lemma trimStart_all_ws x :
  Forall (fun c => isStrWhiteSpaceChar c = true) x -> trimStart x = [].
Proof.
  induction 1 as [|c x Hc _ IH]; simpl; [reflexivity|]. now rewrite Hc.
Qed.

Lemma trim_all_ws x :
  Forall (fun c => isStrWhiteSpaceChar c = true) x -> trim x = [].
Proof. intros H. unfold trim. now rewrite (trimStart_all_ws x H). Qed.

(** The two captures of lines 156-160, in list terms. The parse never
    throws: group 1 takes part in every match of either pattern. *)
Lemma parseAnalysis_spec t aiText :
  parseAnalysis t aiText =
  Fulfilled
    (match afterMarker FeedbackMarker aiText with
     | Some a => trim (upTo (LF :: CorrectedMarker) (trimStart a))
     | None => defaultFeedback
     end,
     match afterMarker CorrectedMarker aiText with
     | Some a => trim a
     | None => t
     end).
Proof.
  unfold parseAnalysis.
  pose proof (match_feedbackRegExp aiText) as Hf.
  pose proof (match_correctedRegExp aiText) as Hc.
  destruct (afterMarker FeedbackMarker aiText) as [a1|].
  - destruct Hf as (m1 & -> & G1). unfold group1_trim at 1. rewrite G1.
    destruct (afterMarker CorrectedMarker aiText) as [a2|].
    + destruct Hc as (m2 & -> & G2). unfold group1_trim. rewrite G2.
      now rewrite trim_trimStart.
    + now rewrite Hc.
  - rewrite Hf.
    destruct (afterMarker CorrectedMarker aiText) as [a2|].
    + destruct Hc as (m2 & -> & G2). unfold group1_trim. rewrite G2.
      now rewrite trim_trimStart.
    + now rewrite Hc.
Qed.

(** A successful run, as seen from outside: the record stored under the
    new id, and the transcript and model answer it was made from. *)
Lemma analyzeSpeech_success req s resp s' :
  analyzeSpeech host cfg req s = (resp, s') -> status resp = 200 ->
  exists r data g bytes,
    analysisResults s' !! newAnalysisId req = Some r
    /\ resp = successResponse host r
    /\ rid r = newAnalysisId req
    /\ deepgram req = Fulfilled data
    /\ extractTranscript data = Fulfilled (Some (transcript r))
    /\ noSpeech (Some (transcript r)) = false
    /\ gemini req = Fulfilled g
    /\ parseAnalysis (transcript r) (orEmpty g)
       = Fulfilled (feedback r, correctedText r)
    /\ tts req (correctedText r) = TtsSaved bytes
    /\ audio r = toString_base64 bytes
    /\ analysisResults s' = <[newAnalysisId req := r]> (analysisResults s)
    /\ timers s' = timers s ++ [(clock s + retention, newAnalysisId req)]
    /\ clock s' = clock s
    /\ files s' !! path_resolve cfg (correctedAudioPathOf cfg req) = None.
Proof.
  intros H H200.
  destruct (analyzeSpeech_inv _ _ _ _ H) as [Hclk [(Hne & _)|Hs]];
    [contradiction|].
  destruct Hs as (r & s1 & Hst & -> & Hmap & Htm & Hfiles).
  destruct (stages_Next _ _ _ _ Hst)
    as (f & data & t & g & bytes & Hf & Hd & Hx & Hns & Hg & Hp & Htts
        & Hr & Hgone).
  assert (Hid : rid r = newAnalysisId req) by (rewrite Hr; reflexivity).
  assert (Ht : transcript r = t) by (rewrite Hr; reflexivity).
  assert (Ha : audio r = toString_base64 bytes) by (rewrite Hr; reflexivity).
  rewrite Hid in Hmap, Htm.
  exists r, data, g, bytes. rewrite Ht.
  repeat split; auto.
  - rewrite Hmap. apply lookup_insert_eq.
  - now rewrite Hfiles.
Qed.

End HandlerFacts.

(* ===================================================================== *)
(** * The parsing and fallback policy                                     *)
(* ===================================================================== *)

Section ParsingClaims.

Context (host : Host) (cfg : Config).

(** C1 (as amended). After a successful run whose model answer has both
    markers, the stored feedback is the trimmed text from the first
    "Feedback:" marker, past the white space that follows it, up to the
    next "Corrected:" marker that comes right after a line feed (or to
    the end of the answer), and the stored corrected text is the trimmed
    text from the first "Corrected:" marker to the end. *)
Theorem stored_feedback_and_correctedText req s g fb ct :
  status (fst (analyzeSpeech host cfg req s)) = 200 ->
  gemini req = Fulfilled g ->
  lineStart_feedback (orEmpty g) = Some fb ->
  spec_correctedText (orEmpty g) = Some ct ->
  exists r,
    analysisResults (snd (analyzeSpeech host cfg req s))
      !! newAnalysisId req = Some r
    /\ feedback r = fb /\ correctedText r = ct.
Proof.
  intros H200 Hg Hfb Hct.
  destruct (analyzeSpeech host cfg req s) as [resp s'] eqn:E.
  destruct (analyzeSpeech_success host cfg _ _ _ _ E H200)
    as (r & data & g' & bytes & Hr & _ & _ & _ & _ & _ & Hg' & Hp & _).
  rewrite Hg in Hg'. injection Hg' as <-.
  rewrite parseAnalysis_spec in Hp. injection Hp as Hf Hc.
  unfold lineStart_feedback in Hfb. unfold spec_correctedText in Hct.
  exists r. cbn [snd]. split; [exact Hr|].
  destruct (afterMarker FeedbackMarker (orEmpty g)); [|discriminate].
  destruct (afterMarker CorrectedMarker (orEmpty g)); [|discriminate].
  split; congruence.
Qed.

(** C2. After a successful run, an answer without a "Feedback:" marker
    leaves the fixed default message as the stored feedback, and an
    answer without a "Corrected:" marker leaves the transcript itself,
    unchanged, as the stored corrected text. *)
Theorem fallback_policy req s g :
  status (fst (analyzeSpeech host cfg req s)) = 200 ->
  gemini req = Fulfilled g ->
  exists r data,
    analysisResults (snd (analyzeSpeech host cfg req s))
      !! newAnalysisId req = Some r
    /\ deepgram req = Fulfilled data
    /\ extractTranscript data = Fulfilled (Some (transcript r))
    /\ (afterMarker FeedbackMarker (orEmpty g) = None ->
        feedback r = lit "No specific feedback generated.")
    /\ (afterMarker CorrectedMarker (orEmpty g) = None ->
        correctedText r = transcript r).
Proof.
  intros H200 Hg.
  destruct (analyzeSpeech host cfg req s) as [resp s'] eqn:E.
  destruct (analyzeSpeech_success host cfg _ _ _ _ E H200)
    as (r & data & g' & bytes & Hr & _ & _ & Hd & Hx & _ & Hg' & Hp & _).
  rewrite Hg in Hg'. injection Hg' as <-.
  rewrite parseAnalysis_spec in Hp. injection Hp as Hf Hc.
  exists r, data. cbn [snd]. repeat split; auto.
  - intros Hn. now rewrite Hn in Hf.
  - intros Hn. now rewrite Hn in Hc.
Qed.

(** Whatever the synthesizer does, the stored corrected text is not
    empty whenever the model answer has no "Corrected:" marker, or the
    text after the first one is not all white space. *)
Lemma correctedText_nonempty req s g :
  status (fst (analyzeSpeech host cfg req s)) = 200 ->
  gemini req = Fulfilled g ->
  (forall a, afterMarker CorrectedMarker (orEmpty g) = Some a ->
             trim a <> []) ->
  exists r,
    analysisResults (snd (analyzeSpeech host cfg req s))
      !! newAnalysisId req = Some r
    /\ correctedText r <> [].
Proof.
  intros H200 Hg Hne.
  destruct (analyzeSpeech host cfg req s) as [resp s'] eqn:E.
  destruct (analyzeSpeech_success host cfg _ _ _ _ E H200)
    as (r & data & g' & bytes & Hr & _ & _ & _ & _ & Hns & Hg' & Hp & _).
  rewrite Hg in Hg'. injection Hg' as <-.
  rewrite parseAnalysis_spec in Hp. injection Hp as _ Hc.
  exists r. cbn [snd]. split; [exact Hr|].
  destruct (afterMarker CorrectedMarker (orEmpty g)) as [a|].
  - rewrite <- Hc. now apply Hne.
  - rewrite <- Hc. intros Ht. rewrite Ht in Hns. discriminate Hns.
Qed.

(** C3. A record that is stored has a corrected text that is not
    empty. The parse can come back with the empty string (a "Corrected:"
    marker with nothing but white space after it), but the handler then
    builds the synthesizer on that empty string at line 172, the
    synthesizer refuses it, and line 203 is not reached. *)
Theorem stored_correctedText_nonempty req s :
  refuses_empty_text req ->
  status (fst (analyzeSpeech host cfg req s)) = 200 ->
  exists r,
    analysisResults (snd (analyzeSpeech host cfg req s))
      !! newAnalysisId req = Some r
    /\ correctedText r <> [].
Proof.
  intros Hrej H200.
  destruct (analyzeSpeech host cfg req s) as [resp s'] eqn:E.
  destruct (analyzeSpeech_success host cfg _ _ _ _ E H200)
    as (r & data & g' & bytes & Hr & _ & _ & _ & _ & _ & _ & _ & Htts & _).
  exists r. cbn [snd]. split; [exact Hr|].
  intros Hnil. rewrite Hnil in Htts. exact (Hrej bytes Htts).
Qed.

(** C9. In the response of a successful run, [preview.hasCorrections]
    is false exactly when the stored corrected text and the stored
    transcript are equal after lower-casing both. *)
Theorem hasCorrections_iff req s :
  status (fst (analyzeSpeech host cfg req s)) = 200 ->
  exists r hasCorrections,
    analysisResults (snd (analyzeSpeech host cfg req s))
      !! newAnalysisId req = Some r
    /\ body (fst (analyzeSpeech host cfg req s))
       = SuccessBody (rid r) (lit "/results/" ++ rid r)
           (previewOf (transcript r)) hasCorrections
    /\ (hasCorrections = false <->
        toLowerCase host (correctedText r)
        = toLowerCase host (transcript r)).
Proof.
  intros H200.
  destruct (analyzeSpeech host cfg req s) as [resp s'] eqn:E.
  destruct (analyzeSpeech_success host cfg _ _ _ _ E H200)
    as (r & data & g' & bytes & Hr & -> & _).
  exists r, (negb (bool_decide (toLowerCase host (correctedText r)
                                = toLowerCase host (transcript r)))).
  cbn [fst snd]. split; [exact Hr|]. split; [reflexivity|].
  rewrite negb_false_iff, bool_decide_eq_true. reflexivity.
Qed.

End ParsingClaims.

(* ===================================================================== *)
(** * Failures                                                            *)
(* ===================================================================== *)

Section FailureClaims.

Context (host : Host) (cfg : Config).

(** Any response other than the 200 of line 211 leaves the result map
    and the timers as they were. *)
Lemma non200_stores_nothing req s :
  status (fst (analyzeSpeech host cfg req s)) <> 200 ->
  analysisResults (snd (analyzeSpeech host cfg req s)) = analysisResults s
  /\ timers (snd (analyzeSpeech host cfg req s)) = timers s.
Proof.
  destruct (analyzeSpeech host cfg req s) as [resp s'] eqn:E. cbn [fst snd].
  intros Hne.
  destruct (analyzeSpeech_inv host cfg _ _ _ _ E) as [_ [(_ & H1 & H2)|Hs]];
    [auto|].
  destruct Hs as (r & s1 & _ & -> & _). now destruct Hne.
Qed.

(** C4. When the transcription call, the feedback call or the synthesis
    fails, or the run ends in any response other than the 200 of a
    completed pipeline, the run does not answer 200 and the result map
    (and the list of expiry timers) after the run is the one before
    it. *)
Theorem failed_run_stores_nothing req s :
  stage_fails req \/ status (fst (analyzeSpeech host cfg req s)) <> 200 ->
  status (fst (analyzeSpeech host cfg req s)) <> 200
  /\ analysisResults (snd (analyzeSpeech host cfg req s)) = analysisResults s
  /\ timers (snd (analyzeSpeech host cfg req s)) = timers s.
Proof.
  intros Hfail.
  assert (Hne : status (fst (analyzeSpeech host cfg req s)) <> 200).
  { destruct Hfail as [Hfail|Hne]; [|exact Hne].
    destruct (analyzeSpeech host cfg req s) as [resp s'] eqn:E. cbn [fst].
    intros H200.
    destruct (analyzeSpeech_success host cfg _ _ _ _ E H200)
      as (r & data & g & bytes & _ & _ & _ & Hd & _ & _ & Hg & _ & Ht & _).
    destruct Hfail as [[e He]|[[e He]|Hall]]; [congruence | congruence |].
    exact (Hall _ _ Ht). }
  split; [exact Hne|]. now apply non200_stores_nothing.
Qed.

(** When the upload was read, the transcription call answered and the
    optional chain of line 113 came back with a value, and that value is
    [undefined], empty or all white space, the response is the 400 "No
    speech detected" and nothing is stored. *)
Theorem no_speech_detected req s f buf data t :
  file req = Some f ->
  fs_readFile cfg (path_resolve cfg (path f)) s = Fulfilled buf ->
  deepgram req = Fulfilled data ->
  extractTranscript data = Fulfilled t ->
  match t with
  | None => True
  | Some x => Forall (fun c => isStrWhiteSpaceChar c = true) x
  end ->
  fst (analyzeSpeech host cfg req s)
  = {| status := 400;
       body := ErrorBody (lit "No speech detected")
         (Some (lit "Could not detect any speech in the audio file. Please try again with a clearer recording."))
         None |}
  /\ analysisResults (snd (analyzeSpeech host cfg req s)) = analysisResults s
  /\ timers (snd (analyzeSpeech host cfg req s)) = timers s.
Proof.
  intros Hfile Hread Hdg Hx Ht.
  assert (Hns : noSpeech t = true).
  { destruct t as [x|]; [|reflexivity]. unfold noSpeech.
    rewrite (trim_all_ws x Ht). apply orb_true_r. }
  assert (E : fst (analyzeSpeech host cfg req s)
              = jsonError 400 "No speech detected"
                  "Could not detect any speech in the audio file. Please try again with a clearer recording.").
  { unfold analyzeSpeech, tryBlock, stages. rewrite Hfile.
    unfold bind, awaitS, await. rewrite Hread, Hdg.
    unfold fs_readFile in Hread. unfold fs_unlink.
    destruct (files s !! _); [|discriminate Hread].
    rewrite Hx, Hns. reflexivity. }
  split; [exact E|]. apply non200_stores_nothing. rewrite E. discriminate.
Qed.





(** On the success path the synthesized file is gone when the response
    is sent (line 188). *)
Lemma synthesized_file_deleted_on_success req s :
  status (fst (analyzeSpeech host cfg req s)) = 200 ->
  files (snd (analyzeSpeech host cfg req s))
    !! path_resolve cfg (correctedAudioPathOf cfg req) = None.
Proof.
  intros H200.
  destruct (analyzeSpeech host cfg req s) as [resp s'] eqn:E.
  now destruct (analyzeSpeech_success host cfg _ _ _ _ E H200)
    as (r & data & g & bytes & _ & _ & _ & _ & _ & _ & _ & _ & _ & _ & _
        & _ & _ & Hgone).
Qed.

(** On the path through a failed [save], nothing deletes what the
    synthesizer had written: the only unlink of the [catch] block is
    that of the upload. *)
Lemma synthesized_file_kept_on_error req s f buf data t g fb ct b :
  file req = Some f ->
  fs_readFile cfg (path_resolve cfg (path f)) s = Fulfilled buf ->
  deepgram req = Fulfilled data ->
  extractTranscript data = Fulfilled (Some t) ->
  noSpeech (Some t) = false ->
  gemini req = Fulfilled g ->
  parseAnalysis t (orEmpty g) = Fulfilled (fb, ct) ->
  tts req ct = TtsError (Some b) ->
  path_resolve cfg (path f)
  <> path_resolve cfg (correctedAudioPathOf cfg req) ->
  files (snd (analyzeSpeech host cfg req s))
    !! path_resolve cfg (correctedAudioPathOf cfg req) = Some b.
Proof.
  intros Hfile Hread Hdg Hx Hns Hg Hp Htts Hpaths.
  unfold analyzeSpeech, tryBlock, stages. rewrite Hfile.
  unfold bind, awaitS, await. rewrite Hread, Hdg.
  unfold fs_readFile in Hread. unfold fs_unlink, setFiles.
  destruct (files s !! path_resolve cfg (path_resolve cfg (path f)))
    as [buf'|] eqn:El; [|discriminate Hread].
  rewrite Hx, Hns, Hg. change (default [] (Some t)) with t.
  rewrite Hp. cbn [fst snd].
  unfold tts_save. rewrite Htts.
  unfold catchBlock. rewrite Hfile. cbn [fst snd files].
  rewrite fs_unlink_keeps by exact Hpaths.
  cbn [files]. apply lookup_insert_eq.
Qed.

End FailureClaims.

(* ===================================================================== *)
(** * Where the feedback capture ends                                     *)
(* ===================================================================== *)

Section CaptureFacts.

Lemma asciiUpper_LF c : asciiUpper c = 10 -> c = 10.
Proof.
  unfold asciiUpper.
  destruct (97 <=? c) eqn:E1; destruct (c <=? 122) eqn:E2; simpl; try lia.
  apply N.leb_le in E1. lia.
Qed.

Lemma asciiUpper_not_ws c u :
  asciiUpper c = u -> (33 <= u)%N -> (u <= 126)%N ->
  isStrWhiteSpaceChar c = false.
Proof.
  unfold asciiUpper. intros H Hlo Hhi.
  assert (Hc : (33 <= c)%N /\ (c <= 126)%N).
  { destruct (97 <=? c) eqn:E1; destruct (c <=? 122) eqn:E2; simpl in H;
      try apply N.leb_le in E1; try apply N.leb_le in E2; lia. }
  destruct Hc as [H1 H2].
  unfold isStrWhiteSpaceChar, isWhiteSpace, isLineTerminator.
  repeat match goal with
  | |- context [?a =? ?b] =>
      replace (a =? b) with false by (symmetry; apply N.eqb_neq; lia)
  | |- context [?a <=? ?b] =>
      replace (a <=? b) with false by (symmetry; apply N.leb_gt; lia)
  end.
  reflexivity.
Qed.

Lemma ciStartsWith_lookup p : forall occ j pc,
  ciStartsWith p occ = true -> p !! j = Some pc ->
  exists c r, drop j occ = c :: r /\ asciiUpper c = asciiUpper pc.
Proof.
  induction p as [|a p IH]; intros occ j pc H Hj; [discriminate Hj|].
  destruct occ as [|b occ]; [discriminate H|].
  cbn [ciStartsWith] in H. apply andb_true_iff in H as [Hb Hr].
  destruct j as [|j].
  - injection Hj as <-. exists b, occ. split; [reflexivity|].
    now apply N.eqb_eq.
  - cbn [drop]. exact (IH occ j pc Hr Hj).
Qed.

Lemma CorrectedMarker_chars :
  Forall (fun pc => (33 <= asciiUpper pc)%N /\ (asciiUpper pc <= 126)%N)
         CorrectedMarker.
Proof. repeat constructor; vm_compute; discriminate. Qed.

(** Every character of an occurrence of "Corrected:" is printable: no
    line feed, no white space. *)
Lemma occurrence_char occ j :
  ciStartsWith CorrectedMarker occ = true -> (j < 10)%nat ->
  exists c r, drop j occ = c :: r
    /\ c <> 10 /\ isStrWhiteSpaceChar c = false.
Proof.
  intros H Hj.
  destruct (lookup_lt_is_Some_2 CorrectedMarker j) as [pc Hpc];
    [exact Hj|].
  destruct (ciStartsWith_lookup _ _ _ _ H Hpc) as (c & r & Hd & Hu).
  pose proof (proj1 (Forall_lookup _ _) CorrectedMarker_chars j pc Hpc)
    as [Hlo Hhi].
  exists c, r. split; [exact Hd|]. split.
  - intros ->. rewrite <- Hu in Hlo. vm_compute in Hlo. now apply Hlo.
  - eapply asciiUpper_not_ws; [exact Hu | exact Hlo | exact Hhi].
Qed.

Lemma ciStartsWith_LF q c r :
  c <> 10 -> ciStartsWith (LF :: q) (c :: r) = false.
Proof.
  intros Hc. cbn [ciStartsWith].
  destruct (asciiUpper c =? asciiUpper LF) eqn:E; [|reflexivity].
  apply N.eqb_eq in E. change (asciiUpper LF) with 10 in E.
  now apply asciiUpper_LF in E.
Qed.

Lemma trimStart_keeps pre c r :
  isStrWhiteSpaceChar c = false ->
  exists p', trimStart (pre ++ c :: r) = p' ++ c :: r.
Proof.
  intros Hc. induction pre as [|x pre [p' IH]]; simpl.
  - rewrite Hc. now exists [].
  - destruct (isStrWhiteSpaceChar x).
    + now exists p'.
    + now exists (x :: pre).
Qed.

(** Trimming does not reach into a run that starts and ends with a
    character that is not white space. *)
Lemma trim_keeps pre c1 mid c2 suf :
  isStrWhiteSpaceChar c1 = false -> isStrWhiteSpaceChar c2 = false ->
  exists p' s',
    trim (pre ++ (c1 :: mid ++ [c2]) ++ suf)
    = p' ++ (c1 :: mid ++ [c2]) ++ s'.
Proof.
  intros H1 H2. unfold trim, trimEnd.
  destruct (trimStart_keeps pre c1 ((mid ++ [c2]) ++ suf) H1) as [p' E].
  change (pre ++ (c1 :: mid ++ [c2]) ++ suf)
    with (pre ++ c1 :: (mid ++ [c2]) ++ suf).
  rewrite E.
  replace (rev (p' ++ c1 :: (mid ++ [c2]) ++ suf))
    with (rev suf ++ c2 :: rev (p' ++ c1 :: mid)).
  2: { rewrite !rev_app_distr. simpl. rewrite !rev_app_distr. simpl.
       rewrite <- !app_assoc. reflexivity. }
  destruct (trimStart_keeps (rev suf) c2 (rev (p' ++ c1 :: mid)) H2)
    as [q E2].
  rewrite E2. exists p', (rev q).
  rewrite rev_app_distr. simpl. rewrite rev_involutive.
  rewrite <- !app_assoc. simpl. rewrite <- ?app_assoc. reflexivity.
Qed.

Lemma afterMarker_suffix p : forall s a,
  afterMarker p s = Some a -> exists x, s = x ++ a.
Proof.
  induction s as [|c s IH]; intros a; cbn [afterMarker].
  - destruct (ciStartsWith p []); [|discriminate].
    intros [= <-]. exists []. now rewrite drop_nil.
  - destruct (ciStartsWith p (c :: s)).
    + intros [= <-]. exists (take (length p) (c :: s)).
      now rewrite take_drop.
    + intros H. destruct (IH a H) as [x ->]. now exists (c :: x).
Qed.

(** [afterMarker] finds nothing exactly when the marker occurs nowhere,
    in any letter case. *)
Lemma afterMarker_None_iff p s :
  afterMarker p s = None <->
  forall x occ, s = x ++ occ -> ciStartsWith p occ = false.
Proof.
  split.
  - induction s as [|c s IH]; cbn [afterMarker]; intros H x occ Hs.
    + destruct (ciStartsWith p []) eqn:E; [discriminate|].
      destruct x; [|discriminate Hs]. simpl in Hs. now subst occ.
    + destruct (ciStartsWith p (c :: s)) eqn:E; [discriminate|].
      destruct x as [|c' x]; simpl in Hs.
      * now subst occ.
      * injection Hs as _ Hs. exact (IH H x occ Hs).
  - intros H. induction s as [|c s IH]; cbn [afterMarker].
    + now rewrite (H [] [] eq_refl).
    + rewrite (H [] (c :: s) eq_refl). apply IH.
      intros x occ ->. exact (H (c :: x) occ eq_refl).
Qed.

Lemma afterMarker_occurrence p : forall x occ,
  ciStartsWith p occ = true -> is_Some (afterMarker p (x ++ occ)).
Proof.
  induction x as [|c x IH]; intros occ H.
  - simpl. destruct occ; cbn [afterMarker]; rewrite H; eauto.
  - cbn [app afterMarker]. destruct (ciStartsWith p (c :: x ++ occ)); eauto.
Qed.

Lemma trimStart_suffix s : exists w, s = w ++ trimStart s.
Proof.
  induction s as [|c s [w IH]]; simpl; [now exists []|].
  destruct (isStrWhiteSpaceChar c); [|now exists []].
  exists (c :: w). simpl. now rewrite <- IH.
Qed.

(** With no occurrence in front of it, an occurrence is the one that
    [afterMarker] finds. *)
Lemma afterMarker_first p : forall y occ,
  (forall k, (k < length y)%nat ->
     ciStartsWith p (drop k (y ++ occ)) = false) ->
  ciStartsWith p occ = true ->
  afterMarker p (y ++ occ) = Some (drop (length p) occ).
Proof.
  induction y as [|c y IH]; intros occ Hno Hocc.
  - simpl. destruct occ; cbn [afterMarker]; now rewrite Hocc.
  - cbn [app afterMarker].
    pose proof (Hno 0%nat ltac:(simpl; lia)) as H0. rewrite drop_0 in H0.
    cbn [app] in H0. rewrite H0. apply IH; [|exact Hocc].
    intros k Hk. apply (Hno (S k)). simpl. lia.
Qed.

Lemma snoc_cases (l : list N) : l = [] \/ exists l0 c, l = l0 ++ [c].
Proof. induction l using rev_ind; eauto. Qed.

End CaptureFacts.

Section CaptureClaim.

(** C10 (as amended). The raw capture of the feedback pattern starts
    after the first "Feedback:" and the white space behind it, and ends
    only at the end of the answer or in front of a line feed that is
    followed by "Corrected:". An occurrence of "Corrected:" in that text
    that does not follow a line feed, met before any occurrence that
    does, is not where the capture ends: it lies inside the capture and,
    letter for letter, inside the feedback that is stored. The
    corrected-text pattern finds a "Corrected:" marker in such an answer,
    namely the first one of the whole answer: it is this occurrence when
    no "Corrected:" stands in front of it, and the corrected text then
    is the trimmed text behind this occurrence. *)
Theorem inline_marker_stays_in_feedback t aiText a :
  afterMarker FeedbackMarker aiText = Some a ->
  exists cap post,
    feedbackCapture aiText = Some cap
    /\ trimStart a = cap ++ post
    /\ (post = [] \/ ciStartsWith (LF :: CorrectedMarker) post = true)
    /\ forall pre occ,
         trimStart a = pre ++ occ ->
         ciStartsWith CorrectedMarker occ = true ->
         last pre <> Some LF ->
         (forall k, (S k < length pre)%nat ->
            ciStartsWith (LF :: CorrectedMarker) (drop k (trimStart a))
            = false) ->
         cap <> pre
         /\ exists suf p' s' a2,
              cap = pre ++ take 10 occ ++ suf
              /\ afterMarker CorrectedMarker aiText = Some a2
              /\ parseAnalysis t aiText
                 = Fulfilled (p' ++ take 10 occ ++ s', trim a2)
              /\ ((forall k, (k + length occ < length aiText)%nat ->
                     ciStartsWith CorrectedMarker (drop k aiText) = false) ->
                  a2 = drop 10 occ).
Proof.
  intros Ha.
  set (tx := trimStart a).
  set (ok := fun r => ciStartsWith (LF :: CorrectedMarker) r || isEmpty r).
  set (cap := upTo (LF :: CorrectedMarker) tx).
  assert (Hcap : cap = lazyPrefix ok tx) by apply upTo_lazyPrefix.
  exists cap, (drop (length cap) tx).
  assert (Hsplit : tx = cap ++ drop (length cap) tx).
  { rewrite Hcap. apply lazyPrefix_split. }
  assert (Hok : ok (drop (length cap) tx) = true).
  { rewrite Hcap. now apply lazyPrefix_after. }
  split; [|split; [exact Hsplit|split]].
  - unfold feedbackCapture.
    pose proof (match_feedbackRegExp aiText) as Hm. rewrite Ha in Hm.
    destruct Hm as (m & -> & G). exact G.
  - unfold ok in Hok. apply orb_true_iff in Hok as [Hok|Hok]; [now right|].
    left. now destruct (drop (length cap) tx).
  - intros pre occ Htx Hocc Hlast Hearlier.
    (* no position in front of the occurrence ends the capture *)
    assert (Hbefore : forall k, (k < length pre)%nat ->
              ok (drop k tx) = false).
    { intros k Hk. unfold ok.
      destruct (decide (S k < length pre)%nat) as [Hlt|Hge].
      - rewrite (Hearlier k Hlt). rewrite Htx.
        rewrite drop_app_le by lia.
        destruct (drop k pre) eqn:Ed; [|reflexivity].
        apply (f_equal length) in Ed. rewrite length_drop in Ed.
        simpl in Ed. lia.
      - assert (Hk' : length pre = S k) by lia.
        destruct (snoc_cases pre) as [Hnil|(pre0 & c & Hp)].
        + subst pre. simpl in Hk. lia.
        + rewrite Htx, Hp. rewrite Hp, length_app in Hk'. simpl in Hk'.
          rewrite <- app_assoc. rewrite drop_app_length' by lia.
          cbn [app]. rewrite ciStartsWith_LF; [reflexivity|].
          intros ->. apply Hlast. rewrite Hp. apply last_snoc. }
    (* nor does a position inside the occurrence *)
    assert (Hinside : forall j, (j < 10)%nat ->
              ok (drop (length pre + j) tx) = false).
    { intros j Hj. unfold ok. rewrite Htx, drop_app_add'; [|reflexivity].
      destruct (occurrence_char occ j Hocc Hj) as (c & r & -> & Hc & _).
      now rewrite ciStartsWith_LF. }
    assert (Hlen : (length pre + 10 <= length cap)%nat).
    { destruct (decide (length pre + 10 <= length cap)%nat) as [|Hn];
        [assumption|].
      destruct (decide (length cap < length pre)%nat) as [Hlt|Hge].
      - rewrite (Hbefore _ Hlt) in Hok. discriminate.
      - replace (length cap)
          with (length pre + (length cap - length pre))%nat in Hok by lia.
        rewrite Hinside in Hok by lia. discriminate. }
    split.
    { intros Heq. rewrite Heq in Hlen. lia. }
    destruct (occurrence_char occ 0 Hocc ltac:(lia))
      as (c0 & r0 & Hd0 & _ & Hws0).
    destruct (occurrence_char occ 9 Hocc ltac:(lia))
      as (c9 & r9 & Hd9 & _ & Hws9).
    rewrite drop_0 in Hd0.
    assert (Hcore : take 10 occ = c0 :: take 8 r0 ++ [c9]).
    { subst occ. cbn [take]. f_equal.
      do 8 (destruct r0 as [|? r0]; [discriminate Hd9|]).
      destruct r0 as [|? r0]; [discriminate Hd9|].
      cbn [drop] in Hd9. injection Hd9 as -> _. reflexivity. }
    assert (Hlocc : (10 <= length occ)%nat).
    { apply (f_equal length) in Hd9. rewrite length_drop in Hd9.
      simpl in Hd9. lia. }
    set (suf := take (length cap - length pre - 10) (drop 10 occ)).
    assert (Ecap : cap = pre ++ take 10 occ ++ suf).
    { rewrite Hcap. rewrite <- (lazyPrefix_take ok tx). rewrite <- Hcap.
      rewrite Htx. rewrite take_app_ge by lia.
      f_equal. unfold suf.
      replace (length cap - length pre)%nat
        with (10 + (length cap - length pre - 10))%nat at 1 by lia.
      rewrite <- (take_drop 10 occ) at 1.
      rewrite take_app_add'; [reflexivity|].
      rewrite length_take. lia. }
    destruct (afterMarker_suffix _ _ _ Ha) as [x Hx].
    destruct (trimStart_suffix a) as [w Hw].
    assert (Hsome : is_Some (afterMarker CorrectedMarker aiText)).
    { rewrite Hx, Hw. fold tx. rewrite Htx.
      rewrite !app_assoc. now apply afterMarker_occurrence. }
    destruct Hsome as [a2 Ha2].
    destruct (trim_keeps pre c0 (take 8 r0) c9 suf Hws0 Hws9)
      as (p' & s' & Htrim).
    rewrite <- Hcore in Htrim.
    exists suf, p', s', a2.
    split; [exact Ecap|]. split; [exact Ha2|]. split.
    { rewrite parseAnalysis_spec, Ha, Ha2. fold tx. fold cap.
      now rewrite Ecap, Htrim. }
    intros Hfirst.
    assert (Hy : aiText = (x ++ w ++ pre) ++ occ).
    { rewrite Hx, Hw. fold tx. rewrite Htx.
      now rewrite <- !app_assoc. }
    assert (Hfound : afterMarker CorrectedMarker aiText
                     = Some (drop (length CorrectedMarker) occ)).
    { rewrite Hy. apply afterMarker_first; [|exact Hocc].
      intros k Hk. rewrite <- Hy. apply Hfirst.
      rewrite Hy, length_app. lia. }
    rewrite Ha2 in Hfound. now injection Hfound as ->.
Qed.

End CaptureClaim.

(* ===================================================================== *)
(** * Retention                                                           *)
(* ===================================================================== *)

Section ListFacts.

Context {A : Type} (P : A -> Prop) `{forall x, Decision (P x)}.

Lemma filter_delete_other (l : list A) k x :
  l !! k = Some x -> ~ P x -> filter P (delete k l) = filter P l.
Proof.
  revert k. induction l as [|a l IH]; intros k Hk Hx; [discriminate Hk|].
  destruct k as [|k]; simpl in *.
  - injection Hk as ->. now rewrite filter_cons_False.
  - rewrite !filter_cons. now rewrite (IH k Hk Hx).
Qed.

Lemma filter_delete_only (l : list A) k x y :
  l !! k = Some x -> P x -> filter P l = [y] ->
  filter P (delete k l) = [] /\ x = y.
Proof.
  revert k. induction l as [|a l IH]; intros k Hk Hx Hf; [discriminate Hk|].
  destruct k as [|k]; simpl in *.
  - injection Hk as ->. rewrite filter_cons_True in Hf by assumption.
    injection Hf as -> ->. auto.
  - rewrite filter_cons in Hf |- *. destruct (decide (P a)) as [Ha|Ha].
    + injection Hf as -> Hnil.
      apply list_elem_of_lookup_2 in Hk.
      now destruct (filter_nil_not_elem_of P l x Hnil Hx).
    + now apply IH.
Qed.

End ListFacts.

Section RetentionFacts.

Context (host : Host) (cfg : Config) (slack : N).

Lemma step_lifecycle analysisId r due s cl e s' l :
  lifecycle slack analysisId r due s cl ->
  step host cfg slack s e = Some (s', l) ->
  (forall req', e = Post req' -> newAnalysisId req' <> analysisId) ->
  lifecycle slack analysisId r due s' (cl ++ l).
Proof.
  intros Hl Hstep Hfresh. unfold lifecycle in *.
  destruct e as [d|k|req']; cbn [step] in Hstep.
  - (* time passes *)
    destruct (mayElapse slack (clock s + d) s) eqn:Hmay; [|discriminate].
    injection Hstep as <- <-. rewrite app_nil_r.
    destruct Hl as [(H1 & H2 & H3 & H4)|(H1 & H2 & H3 & H4)];
      [left|right]; cbn [analysisResults timers clock];
      repeat split; auto; [|lia].
    unfold mayElapse in Hmay. rewrite forallb_forall in Hmay.
    assert (Hin : (due, analysisId) ∈ timers s).
    { eapply (proj1 (list_elem_of_filter _ _ _)). rewrite H2.
      apply list_elem_of_singleton. reflexivity. }
    apply list_elem_of_In in Hin. specialize (Hmay _ Hin).
    cbn [fst] in Hmay. now apply N.leb_le in Hmay.
  - (* a timer callback runs *)
    destruct (timers s !! k) as [[due' id']|] eqn:Hk; [|discriminate].
    destruct (due' <=? clock s) eqn:Hdue; [|discriminate].
    apply N.leb_le in Hdue. injection Hstep as <- <-.
    rewrite filter_app.
    destruct (decide (id' = analysisId)) as [->|Hne].
    + destruct Hl as [(H1 & H2 & H3 & H4)|(H1 & H2 & H3 & H4)].
      * destruct (filter_delete_only (fun tm => tm.2 = analysisId)
                    _ _ _ _ Hk eq_refl H2) as [Hnil Heq].
        injection Heq as ->.
        right. cbn [analysisResults timers clock].
        repeat split; auto.
        -- apply lookup_delete_eq.
        -- rewrite H4. now rewrite filter_cons_True.
      * apply list_elem_of_lookup_2 in Hk.
        now destruct (filter_nil_not_elem_of
                        (fun tm => tm.2 = analysisId) _
                        (due', analysisId) H2 eq_refl).
    + assert (Hf : filter (fun tm => tm.2 = analysisId)
                     (delete k (timers s))
                   = filter (fun tm => tm.2 = analysisId) (timers s)).
      { apply (filter_delete_other _ _ _ _ Hk). exact Hne. }
      rewrite (filter_cons_False _ id') by exact Hne.
      rewrite filter_nil, app_nil_r.
      destruct Hl as [(H1 & H2 & H3 & H4)|(H1 & H2 & H3 & H4)];
        [left|right]; cbn [analysisResults timers clock];
        rewrite Hf; repeat split; auto;
        rewrite lookup_delete_ne by exact Hne; assumption.
  - (* another request is handled *)
    injection Hstep as <- <-. rewrite app_nil_r.
    specialize (Hfresh req' eq_refl).
    destruct (analyzeSpeech host cfg req' s) as [resp s1] eqn:E.
    cbn [snd].
    destruct (analyzeSpeech_inv host cfg _ _ _ _ E)
      as [Hclk [(_ & Hm & Ht)|Hs]].
    + unfold lifecycle. rewrite Hm, Ht, Hclk. exact Hl.
    + destruct Hs as (res & s0 & Hst & _ & Hm & Ht & _).
      destruct (stages_Next cfg _ _ _ _ Hst)
        as (? & ? & ? & ? & ? & _ & _ & _ & _ & _ & _ & _ & Hres & _).
      assert (Hid : rid res = newAnalysisId req')
        by (rewrite Hres; reflexivity).
      rewrite Hid in Hm, Ht.
      unfold lifecycle. rewrite Hm, Ht, Hclk, filter_app.
      rewrite (filter_cons_False _ (clock s + retention, newAnalysisId req'))
        by exact Hfresh.
      rewrite filter_nil, app_nil_r.
      rewrite lookup_insert_ne by exact Hfresh. exact Hl.
Qed.

Lemma run_lifecycle analysisId r due es : forall s cl s2 l,
  lifecycle slack analysisId r due s cl ->
  run host cfg slack s es = Some (s2, l) ->
  (forall req', Post req' ∈ es -> newAnalysisId req' <> analysisId) ->
  lifecycle slack analysisId r due s2 (cl ++ l).
Proof.
  induction es as [|e es IH]; intros s cl s2 l Hl Hrun Hfresh.
  - injection Hrun as <- <-. now rewrite app_nil_r.
  - cbn [run] in Hrun.
    destruct (step host cfg slack s e) as [[s1 l1]|] eqn:Hstep;
      [|discriminate].
    destruct (run host cfg slack s1 es) as [[s3 l3]|] eqn:Hrest;
      [|discriminate].
    injection Hrun as <- <-. rewrite app_assoc.
    apply (IH s1 (cl ++ l1) s3 l3); auto.
    + eapply step_lifecycle; eauto.
      intros req' ->. apply Hfresh. apply elem_of_cons. now left.
    + intros req' Hin. apply Hfresh. apply elem_of_cons. now right.
Qed.

(** C7 (as amended). A record stored at time t0 under an id that no
    other run uses stays stored until its own timer runs: any probe
    before t0 + 3600000 ms finds it under GET /api/analysis/:id, and
    under GET /api/download/:id if its audio is not the empty string;
    any probe later than t0 + 3600000 ms plus the scheduling slack gets
    404 from both routes; and the timer callback deletes the entry once:
    not at all before the hour is over, exactly once after the slack. *)
Theorem retention_window req s es s2 cleaned :
  status (fst (analyzeSpeech host cfg req s)) = 200 ->
  (forall due, (due, newAnalysisId req) ∉ timers s) ->
  (forall req', Post req' ∈ es -> newAnalysisId req' <> newAnalysisId req) ->
  run host cfg slack (snd (analyzeSpeech host cfg req s)) es
  = Some (s2, cleaned) ->
  exists r,
    analysisResults (snd (analyzeSpeech host cfg req s))
      !! newAnalysisId req = Some r
    /\ (clock s2 < clock s + retention ->
        getAnalysis (newAnalysisId req) s2
        = {| status := 200; body := RecordBody r |}
        /\ (audio r <> [] ->
            download (newAnalysisId req) s2
            = {| status := 200;
                 body := AudioBody (lit "corrected_speech_"
                                    ++ newAnalysisId req ++ lit ".mp3")
                           (audio r) |})
        /\ filter (fun x => x = newAnalysisId req) cleaned = [])
    /\ (clock s + retention + slack < clock s2 ->
        status (getAnalysis (newAnalysisId req) s2) = 404
        /\ status (download (newAnalysisId req) s2) = 404
        /\ filter (fun x => x = newAnalysisId req) cleaned
           = [newAnalysisId req])
    /\ (length (filter (fun x => x = newAnalysisId req) cleaned) <= 1)%nat.
Proof.
  intros H200 Hnew Hfresh Hrun.
  destruct (analyzeSpeech host cfg req s) as [resp s1] eqn:E.
  cbn [fst snd] in *.
  destruct (analyzeSpeech_success host cfg _ _ _ _ E H200)
    as (r & data & g & bytes & Hr & _ & _ & _ & _ & _ & _ & _ & _ & _
        & Hm & Ht & Hclk & _).
  exists r. split; [exact Hr|].
  assert (Hinit : lifecycle slack (newAnalysisId req) r
                    (clock s + retention) s1 []).
  { left. repeat split.
    - exact Hr.
    - rewrite Ht, filter_app.
      rewrite (filter_cons_True _ (clock s + retention, newAnalysisId req))
        by reflexivity.
      rewrite filter_nil.
      replace (filter (fun tm => tm.2 = newAnalysisId req) (timers s))
        with (@nil (N * jsstring)); [reflexivity|].
      symmetry. destruct (filter _ (timers s)) as [|[due i] rest] eqn:Ef;
        [reflexivity|].
      assert (Hin : (due, i) ∈ filter (fun tm => tm.2 = newAnalysisId req)
                                 (timers s))
        by (rewrite Ef; apply elem_of_cons; now left).
      apply list_elem_of_filter in Hin as [Hi Hin]. cbn [snd] in Hi.
      subst i. now destruct (Hnew due).
    - rewrite Hclk. lia. }
  pose proof (run_lifecycle _ _ _ _ _ _ _ _ Hinit Hrun Hfresh) as Hend.
  cbn [app] in Hend.
  destruct Hend as [(H1 & H2 & H3 & H4)|(H1 & H2 & H3 & H4)].
  - split; [|split].
    + intros _. unfold getAnalysis, download. rewrite H1.
      repeat split; auto.
      intros Ha. destruct (audio r); [now destruct Ha | reflexivity].
    + intros Hlate. lia.
    + rewrite H4. simpl. lia.
  - split; [|split].
    + intros Hearly. lia.
    + intros _. unfold getAnalysis, download. rewrite H1. auto.
    + rewrite H4. simpl. lia.
Qed.

End RetentionFacts.

(* ===================================================================== *)
(** * Sample runs                                                         *)
(* ===================================================================== *)

Section SampleRuns.

Import Examples.

(** The example of the specification: transcript "he go to school
    yesterday", answer in two lines. *)
Lemma stored_feedback_and_correctedText_witness :
  exists r,
    analysisResults (snd (analyzeSpeech asciiHost cfg0 reqTwoLines s0))
      !! newAnalysisId reqTwoLines = Some r
    /\ feedback r = lit "Watch subject-verb agreement and past tense."
    /\ correctedText r = lit "He went to school yesterday.".
Proof.
  apply (stored_feedback_and_correctedText asciiHost cfg0 reqTwoLines s0
           (Some answerTwoLines)); vm_compute; reflexivity.
Defined.

(** C1 fails as stated when both sections are on one line: the stored
    feedback runs on through "Corrected: He went." instead of ending at
    "good.". *)
Lemma one_line_answer_breaks_sections :
  ~ sections_as_specified asciiHost cfg0 reqOneLine s0.
Proof.
  intros H.
  destruct (H (Some answerOneLine) (lit "good.") (lit "He went."))
    as (r & Hr & Hf & _); try (vm_compute; reflexivity).
  vm_compute in Hr. injection Hr as <-. vm_compute in Hf. discriminate Hf.
Qed.

Lemma fallback_policy_witness :
  exists r data,
    analysisResults (snd (analyzeSpeech asciiHost cfg0 reqNoMarkers s0))
      !! newAnalysisId reqNoMarkers = Some r
    /\ deepgram reqNoMarkers = Fulfilled data
    /\ extractTranscript data = Fulfilled (Some (transcript r))
    /\ (afterMarker FeedbackMarker (lit "Looks fine to me.") = None ->
        feedback r = lit "No specific feedback generated.")
    /\ (afterMarker CorrectedMarker (lit "Looks fine to me.") = None ->
        correctedText r = transcript r).
Proof.
  apply (fallback_policy asciiHost cfg0 reqNoMarkers s0
           (Some (lit "Looks fine to me."))); vm_compute; reflexivity.
Defined.

(** The two-line answer with a synthesizer that refuses the empty
    text. *)
Lemma stored_correctedText_nonempty_witness :
  refuses_empty_text reqStrict
  /\ exists r,
       analysisResults (snd (analyzeSpeech asciiHost cfg0 reqStrict s0))
         !! newAnalysisId reqStrict = Some r
       /\ correctedText r <> [].
Proof.
  assert (Hrefuses : refuses_empty_text reqStrict).
  { intros bytes H. vm_compute in H. discriminate H. }
  split; [exact Hrefuses|].
  apply (stored_correctedText_nonempty asciiHost cfg0 reqStrict s0 Hrefuses).
  vm_compute; reflexivity.
Defined.

(** An answer whose "Corrected:" section is empty: the parse comes back
    with the empty corrected text, the synthesizer refuses it, and the
    run is answered 500 with nothing stored. *)
Lemma empty_section_is_not_stored :
  parseAnalysis (lit "he go to school yesterday")
    (lit "Feedback: fine" ++ [10] ++ lit "Corrected:")
  = Fulfilled (lit "fine", [])
  /\ status (fst (analyzeSpeech asciiHost cfg0 reqEmptyCorrected s0)) = 500
  /\ analysisResults (snd (analyzeSpeech asciiHost cfg0 reqEmptyCorrected s0))
     = analysisResults s0.
Proof. repeat split; vm_compute; reflexivity. Qed.

Lemma failed_run_stores_nothing_witness :
  status (fst (analyzeSpeech asciiHost cfg0 reqTtsFails s0)) <> 200
  /\ analysisResults (snd (analyzeSpeech asciiHost cfg0 reqTtsFails s0))
     = analysisResults s0
  /\ timers (snd (analyzeSpeech asciiHost cfg0 reqTtsFails s0)) = timers s0.
Proof.
  apply (failed_run_stores_nothing asciiHost cfg0 reqTtsFails s0).
  left; right; right. intros text bytes. discriminate.
Defined.

(** C5. The synthesis creates the file and then reports an error: the
    run answers 500, and the file speech_<id>.mp3 is still in the temp
    directory afterwards, with what had been written to it. *)
Theorem synthesized_file_left_behind :
  status (fst (analyzeSpeech asciiHost cfg0 reqTtsFails s0)) = 500
  /\ files (snd (analyzeSpeech asciiHost cfg0 reqTtsFails s0))
       !! lit "/app/temp/speech_analysis_1700000000000_4fzyo82mv.mp3"
     = Some [73]
  /\ files s0
       !! lit "/app/temp/speech_analysis_1700000000000_4fzyo82mv.mp3"
     = None.
Proof. vm_compute. repeat split; reflexivity. Qed.

Lemma no_speech_detected_witness :
  fst (analyzeSpeech asciiHost cfg0 reqSilence s0)
  = {| status := 400;
       body := ErrorBody (lit "No speech detected")
         (Some (lit "Could not detect any speech in the audio file. Please try again with a clearer recording."))
         None |}
  /\ analysisResults (snd (analyzeSpeech asciiHost cfg0 reqSilence s0))
     = analysisResults s0
  /\ timers (snd (analyzeSpeech asciiHost cfg0 reqSilence s0)) = timers s0.
Proof.
  apply (no_speech_detected asciiHost cfg0 reqSilence s0 upload1
           [82; 73; 70; 70]
           (Some {| results := Some {| channels := Some
              [ {| alternatives := Some
                     [ {| alt_transcript := Some (lit "  ") |} ] |} ] |} |})
           (Some (lit "  ")));
    try reflexivity.
  repeat constructor.
Defined.

(** C6. A transcription answer without its channel list,
    [{ results: {} }], carries no transcript, and the run is not
    answered 400 "No speech detected": [channels[0]] of line 113 has no
    [?.] in front of the index, the expression throws a TypeError and
    the catch block answers 500 "Analysis failed". The chain of line 149
    guards every index ([candidates?.[0]], [parts?.[0]]). *)
Theorem missing_channels_is_answered_500 :
  extractTranscript MoreExamples.noChannels
  = Rejected
      (TypeError "Cannot read properties of undefined (reading '0')")
  /\ fst (analyzeSpeech asciiHost cfg0 MoreExamples.reqNoChannels s0)
     = {| status := 500;
          body := ErrorBody (lit "Analysis failed")
            (Some (lit "Failed to analyze speech. Please ensure you uploaded a valid audio file and try again."))
            None |}
  /\ fst (analyzeSpeech asciiHost cfg0 MoreExamples.reqNoChannels s0)
     <> {| status := 400;
           body := ErrorBody (lit "No speech detected")
             (Some (lit "Could not detect any speech in the audio file. Please try again with a clearer recording."))
             None |}.
Proof.
  split; [vm_compute; reflexivity|].
  split; [vm_compute; reflexivity|].
  vm_compute. discriminate.
Qed.

Lemma retention_window_witness :
  exists s2 cleaned r,
    run asciiHost cfg0 50 (snd (analyzeSpeech asciiHost cfg0 reqTwoLines s0))
      oneHour = Some (s2, cleaned)
    /\ clock s2 = 1000 + retention + 51
    /\ analysisResults (snd (analyzeSpeech asciiHost cfg0 reqTwoLines s0))
         !! newAnalysisId reqTwoLines = Some r
    /\ status (getAnalysis (newAnalysisId reqTwoLines) s2) = 404
    /\ status (download (newAnalysisId reqTwoLines) s2) = 404
    /\ cleaned = [newAnalysisId reqTwoLines].
Proof.
  assert (Hrun : exists s2 cleaned,
             run asciiHost cfg0 50
               (snd (analyzeSpeech asciiHost cfg0 reqTwoLines s0)) oneHour
             = Some (s2, cleaned)
             /\ clock s2 = 1000 + retention + 51
             /\ cleaned = [newAnalysisId reqTwoLines]).
  { eexists _, _. split; [vm_compute; reflexivity|].
    split; vm_compute; reflexivity. }
  destruct Hrun as (s2 & cleaned & Hrun & Hclock & Hcl).
  exists s2, cleaned.
  destruct (retention_window asciiHost cfg0 50 reqTwoLines s0 oneHour
              s2 cleaned)
    as (r & Hr & _ & Hlate & _); [| | | exact Hrun |].
  - vm_compute; reflexivity.
  - intros due Hin. vm_compute in Hin. inversion Hin.
  - intros req' Hin. unfold oneHour in Hin.
    repeat (apply elem_of_cons in Hin as [Hin|Hin]; [discriminate Hin|]).
    inversion Hin.
  - exists r. split; [exact Hrun|]. split; [exact Hclock|].
    split; [exact Hr|].
    destruct Hlate as (H1 & H2 & H3);
      [rewrite Hclock; vm_compute; reflexivity|].
    repeat split; [exact H1 | exact H2 | exact Hcl].
Defined.

(** C7 fails as stated for a record whose audio is the empty string:
    right after the insertion the record can be fetched, its audio
    cannot. *)
Lemma empty_audio_is_not_downloadable :
  ~ retrievable_after_insert asciiHost cfg0 reqEmptyAudio s0.
Proof.
  intros H. destruct H as [_ Hd]; [vm_compute; reflexivity|].
  vm_compute in Hd. discriminate Hd.
Qed.



(** A plain upstream 401 is answered with the fixed 500 body. *)
Lemma plain_401_is_answered_500 :
  fst (analyzeSpeech asciiHost cfg0 (rejecting axios401) s0)
  = {| status := 500;
       body := ErrorBody (lit "API authentication failed")
         (Some (lit "There was an issue with the speech analysis service. Please try again later."))
         None |}.
Proof. vm_compute; reflexivity. Qed.

(** The timeout test reads the code ECONNABORTED and the lower-case
    letters "timeout" only: a connection that timed out at socket level
    (code ETIMEDOUT, "connect ETIMEDOUT ...") is answered with the
    generic 500. *)
Lemma socket_timeout_is_answered_500 :
  isTimeout socketTimedOut = false
  /\ fst (analyzeSpeech asciiHost cfg0 (rejecting socketTimedOut) s0)
     = {| status := 500;
          body := ErrorBody (lit "Analysis failed")
            (Some (lit "Failed to analyze speech. Please ensure you uploaded a valid audio file and try again."))
            None |}.
Proof. split; vm_compute; reflexivity. Qed.

Lemma hasCorrections_iff_witness :
  exists r hasCorrections,
    analysisResults (snd (analyzeSpeech asciiHost cfg0 reqTwoLines s0))
      !! newAnalysisId reqTwoLines = Some r
    /\ body (fst (analyzeSpeech asciiHost cfg0 reqTwoLines s0))
       = SuccessBody (rid r) (lit "/results/" ++ rid r)
           (previewOf (transcript r)) hasCorrections
    /\ (hasCorrections = false <->
        toLowerCase asciiHost (correctedText r)
        = toLowerCase asciiHost (transcript r)).
Proof.
  apply (hasCorrections_iff asciiHost cfg0 reqTwoLines s0).
  vm_compute; reflexivity.
Defined.

(** "Feedback: good. Corrected: He went.": the occurrence of
    "Corrected:" after "good. " stays inside the capture and inside the
    stored feedback, and it is the one the corrected-text pattern
    finds. *)
Lemma inline_marker_stays_in_feedback_witness :
  exists cap p' s',
    feedbackCapture answerOneLine = Some cap
    /\ cap <> lit "good. "
    /\ afterMarker CorrectedMarker answerOneLine = Some (lit " He went.")
    /\ parseAnalysis (lit "he go to school yesterday") answerOneLine
       = Fulfilled (p' ++ lit "Corrected:" ++ s', lit "He went.").
Proof.
  destruct (inline_marker_stays_in_feedback
              (lit "he go to school yesterday") answerOneLine
              (lit " good. Corrected: He went.") eq_refl)
    as (cap & post & Hcap & _ & _ & Hin).
  destruct (Hin (lit "good. ") (lit "Corrected: He went.") eq_refl eq_refl)
    as (Hne & suf & p' & s' & a2 & _ & Ha2 & Hp & Hfirst).
  - vm_compute. discriminate.
  - intros k Hk. vm_compute in Hk.
    do 5 (destruct k as [|k]; [reflexivity|]). lia.
  - assert (Ea2 : a2 = lit " He went.").
    { apply Hfirst. intros k Hk.
      change (length (lit "Corrected: He went.")) with 19%nat in Hk.
      change (length answerOneLine) with 35%nat in Hk.
      do 16 (destruct k as [|k]; [reflexivity|]). lia. }
    subst a2.
    exists cap, p', s'.
    split; [exact Hcap|]. split; [exact Hne|]. split; [exact Ha2|exact Hp].
Defined.

(** C10 fails as stated for an answer with a "Corrected:" on a line of
    its own and a second one further on in that line: the capture ends
    in front of the first, and the second, which follows no line feed,
    is not in the stored feedback "a". *)
Lemma second_marker_is_not_in_feedback :
  ~ inline_marker_kept (lit "he go to school yesterday") answerTwoMarkers.
Proof.
  intros H.
  destruct (H (lit "Feedback: a" ++ [10] ++ lit "Corrected: b ")
              (lit "Corrected: c") eq_refl eq_refl)
    as (p & s & ct & Hp).
  - vm_compute. discriminate.
  - assert (E : parseAnalysis (lit "he go to school yesterday")
                  answerTwoMarkers
                = Fulfilled (lit "a", lit "b Corrected: c"))
      by (vm_compute; reflexivity).
    rewrite E in Hp. injection Hp as Hfb _.
    apply (f_equal length) in Hfb. rewrite !length_app in Hfb.
    simpl in Hfb. lia.
Qed.

(** With a "Corrected:" in front of the feedback section, the one inside
    the section stays in the stored feedback, and the corrected text is
    taken from the earlier one. *)
Lemma earlier_marker_is_the_one_located :
  parseAnalysis (lit "he go to school yesterday") answerMarkerFirst
  = Fulfilled
      (lit "good. Corrected: He went.",
       lit "x" ++ [10] ++ lit "Feedback: good. Corrected: He went.").
Proof. vm_compute; reflexivity. Qed.

End SampleRuns.

(* ===================================================================== *)
(** * The responses of the handler                                        *)
(* ===================================================================== *)

Section ResponseFacts.

Context (host : Host) (cfg : Config).

Lemma stages_Reply_shape req s r s' :
  stages cfg req s = (Reply r, s') ->
  r = jsonError 400 "No audio file uploaded"
        "Please select an audio file to analyze"
  \/ r = jsonError 400 "No speech detected"
         "Could not detect any speech in the audio file. Please try again with a clearer recording.".
Proof.
  unfold stages. destruct (file req) as [f|].
  2: { intros H. inversion H. now left. }
  intros H.
  apply bind_Reply in H as [H|(? & s1 & _ & H)]; [now apply awaitS_Reply in H|].
  apply bind_Reply in H as [H|(data & s2 & _ & H)]; [now apply await_Reply in H|].
  apply bind_Reply in H as [H|(? & s3 & _ & H)]; [now apply awaitS_Reply in H|].
  apply bind_Reply in H as [H|(t & s4 & _ & H)]; [now apply await_Reply in H|].
  destruct (noSpeech t); [inversion H; now right|].
  apply bind_Reply in H as [H|(g & s5 & _ & H)]; [now apply await_Reply in H|].
  apply bind_Reply in H as [H|(pa & s6 & _ & H)]; [now apply await_Reply in H|].
  apply bind_Reply in H as [H|(? & s7 & _ & H)]; [now apply awaitS_Reply in H|].
  apply bind_Reply in H as [H|(b & s8 & _ & H)]; [now apply awaitS_Reply in H|].
  apply bind_Reply in H as [H|(? & s9 & _ & H)]; [now apply awaitS_Reply in H|].
  inversion H.
Qed.

(** X1. Whatever the request, whatever the middlewares in front of the
    callback do with it and whatever the services answer, the route
    sends either the 200 success body or an error body whose status and
    [error] code are one of six fixed pairs (400 twice, 408, 500 three
    times: two from the catch block, one from the error-handling
    middleware of lines 268-274), always with a [message]; [details] is
    present only in the generic "Analysis failed" body. *)
Theorem responses_are_known middlewareError req s :
  (status (routeResponse host cfg middlewareError req s) = 200
   /\ exists id url pv hc,
        body (routeResponse host cfg middlewareError req s)
        = SuccessBody id url pv hc)
  \/ (exists err msg details,
        body (routeResponse host cfg middlewareError req s)
        = ErrorBody err (Some msg) details
        /\ (status (routeResponse host cfg middlewareError req s), err)
           ∈ routeErrorKinds
        /\ (details <> None -> err = lit "Analysis failed")).
Proof.
  destruct middlewareError as [err|]; cbn [routeResponse].
  { right. unfold errorHandler. eexists _, _, _.
    split; [reflexivity|]. split; [|now intros []].
    unfold routeErrorKinds, errorKinds. cbn [status jsonError app].
    rewrite !elem_of_cons; auto 10. }
  unfold analyzeSpeech, tryBlock, bind.
  destruct (stages cfg req s) as [[result|r|e] s1] eqn:E.
  - left. cbn. split; [reflexivity|]. eauto.
  - right. cbn [fst].
    destruct (stages_Reply_shape _ _ _ _ E) as [->| ->];
      eexists _, _, _; (split; [reflexivity|]); (split; [|now intros []]);
      unfold routeErrorKinds, errorKinds; cbn [status jsonError app];
      rewrite !elem_of_cons; auto 10.
  - right. unfold catchBlock. cbn [fst]. unfold errorResponse.
    destruct (isTimeout e); [|destruct (bool_decide _)];
      eexists _, _, _; (split; [reflexivity|]);
      (split; [unfold routeErrorKinds, errorKinds;
               cbn [status jsonError app];
               rewrite !elem_of_cons; auto 10|]);
      try (now intros []); reflexivity.
Qed.

(** The optional chain throws exactly on the malformed bodies. *)
Lemma extractTranscript_throws_iff data :
  (exists e, extractTranscript data = Rejected e) <-> malformed data.
Proof.
  unfold malformed, extractTranscript. split.
  - intros [e H]. destruct data as [d|]; [|discriminate].
    destruct (results d) as [r|] eqn:Er; [|discriminate].
    exists d, r. repeat split; auto.
    destruct (channels r) as [chs|] eqn:Ec; [|now left]. right.
    destruct (head chs) as [ch|] eqn:Eh; [|discriminate].
    destruct (alternatives ch) as [alts|] eqn:Ea.
    + destruct (head alts); discriminate.
    + now exists chs, ch.
  - intros (d & r & -> & -> & [->|(chs & ch & -> & -> & ->)]); eauto.
Qed.

(** X2. A transcription answer whose [results] lacks [channels], or
    whose first channel lacks [alternatives], is not treated as "no
    speech": the optional chain throws, and the response is the generic
    500 "Analysis failed"; nothing is stored. *)
Theorem malformed_transcription_is_500 req s f buf data :
  file req = Some f ->
  fs_readFile cfg (path_resolve cfg (path f)) s = Fulfilled buf ->
  deepgram req = Fulfilled data ->
  malformed data ->
  status (fst (analyzeSpeech host cfg req s)) = 500
  /\ (exists details,
        body (fst (analyzeSpeech host cfg req s))
        = ErrorBody (lit "Analysis failed")
            (Some (lit "Failed to analyze speech. Please ensure you uploaded a valid audio file and try again."))
            details)
  /\ analysisResults (snd (analyzeSpeech host cfg req s)) = analysisResults s.
Proof.
  intros Hfile Hread Hdg Hbad.
  apply extractTranscript_throws_iff in Hbad as [e He].
  assert (He' : e = TypeError "Cannot read properties of undefined (reading '0')").
  { unfold extractTranscript in He.
    repeat match type of He with
    | match ?x with _ => _ end = _ => destruct x; try discriminate He
    end; now inversion He. }
  assert (E : fst (analyzeSpeech host cfg req s) = errorResponse cfg e).
  { unfold analyzeSpeech, tryBlock, stages. rewrite Hfile.
    unfold bind, awaitS, await. rewrite Hread, Hdg.
    unfold fs_readFile in Hread. unfold fs_unlink.
    destruct (files s !! _); [|discriminate Hread].
    rewrite He. reflexivity. }
  assert (Hshape : errorResponse cfg e
            = {| status := 500;
                 body := ErrorBody (lit "Analysis failed")
                   (Some (lit "Failed to analyze speech. Please ensure you uploaded a valid audio file and try again."))
                   (if bool_decide (NODE_ENV cfg = Some (lit "development"))
                    then Some (message e) else None) |}).
  { subst e. reflexivity. }
  rewrite E, Hshape. cbn [status body].
  split; [reflexivity|]. split; [eauto|].
  apply non200_stores_nothing. rewrite E, Hshape. discriminate.
Qed.

(** X3. When the synthesis calls back with an error, whatever that
    error was, the response is the generic 500 "Analysis failed"; the
    only detail that can be attached (under NODE_ENV=development) is the
    fixed text "Failed to generate corrected audio". *)
Theorem synthesis_error_is_generic_500 req s f buf data t g fb ct partial :
  file req = Some f ->
  fs_readFile cfg (path_resolve cfg (path f)) s = Fulfilled buf ->
  deepgram req = Fulfilled data ->
  extractTranscript data = Fulfilled (Some t) ->
  noSpeech (Some t) = false ->
  gemini req = Fulfilled g ->
  parseAnalysis t (orEmpty g) = Fulfilled (fb, ct) ->
  tts req ct = TtsError partial ->
  fst (analyzeSpeech host cfg req s)
  = {| status := 500;
       body := ErrorBody (lit "Analysis failed")
         (Some (lit "Failed to analyze speech. Please ensure you uploaded a valid audio file and try again."))
         (if bool_decide (NODE_ENV cfg = Some (lit "development"))
          then Some (lit "Failed to generate corrected audio") else None) |}.
Proof.
  intros Hfile Hread Hdg Hx Hns Hg Hp Htts.
  unfold analyzeSpeech, tryBlock, stages. rewrite Hfile.
  unfold bind, awaitS, await. rewrite Hread, Hdg.
  unfold fs_readFile in Hread. unfold fs_unlink, setFiles.
  destruct (files s !! path_resolve cfg (path_resolve cfg (path f)))
    as [buf'|] eqn:El; [|discriminate Hread].
  rewrite Hx, Hns, Hg. change (default [] (Some t)) with t.
  rewrite Hp. cbn [fst snd].
  unfold tts_save. rewrite Htts.
  unfold catchBlock. cbn [fst]. reflexivity.
Qed.

(** X4. The [analysisId] of a 200 response is the key of the record
    just stored: GET /api/analysis/:id with it returns that record,
    whose [id] is the same string and whose timestamp is the one taken
    at line 199; [redirectUrl] is "/results/" followed by the id. *)
Theorem analysisId_retrieves_record req s :
  status (fst (analyzeSpeech host cfg req s)) = 200 ->
  exists id pv hc r,
    body (fst (analyzeSpeech host cfg req s))
    = SuccessBody id (lit "/results/" ++ id) pv hc
    /\ getAnalysis id (snd (analyzeSpeech host cfg req s))
       = {| status := 200; body := RecordBody r |}
    /\ rid r = id
    /\ timestamp r = iso_now req.
Proof.
  intros H200.
  destruct (analyzeSpeech host cfg req s) as [resp s'] eqn:E.
  destruct (analyzeSpeech_inv host cfg _ _ _ _ E) as [_ [(Hne & _)|Hs]];
    [contradiction|].
  destruct Hs as (r & s1 & Hst & -> & Hmap & _).
  destruct (stages_Next cfg _ _ _ _ Hst)
    as (? & ? & ? & ? & ? & _ & _ & _ & _ & _ & _ & _ & Hres & _).
  exists (rid r), (previewOf (transcript r)),
    (negb (bool_decide (toLowerCase host (correctedText r)
                        = toLowerCase host (transcript r)))), r.
  cbn [fst snd]. split; [reflexivity|]. split.
  - unfold getAnalysis. rewrite Hmap, lookup_insert_eq. reflexivity.
  - split; [reflexivity|]. rewrite Hres. reflexivity.
Qed.

Lemma toString_base64_nil b : toString_base64 b = [] -> b = [].
Proof. destruct b as [|x [|y [|z r]]]; simpl; intros H; now inversion H. Qed.

(** X5. Right after a 200 response, GET /api/download/:id serves the
    Base64 text of the bytes the synthesizer had written, under the file
    name corrected_speech_<id>.mp3, exactly when those bytes are not
    empty; for an empty synthesized file it answers 404. *)
Theorem download_after_success req s :
  status (fst (analyzeSpeech host cfg req s)) = 200 ->
  exists r bytes,
    analysisResults (snd (analyzeSpeech host cfg req s))
      !! newAnalysisId req = Some r
    /\ tts req (correctedText r) = TtsSaved bytes
    /\ (bytes <> [] ->
        download (newAnalysisId req) (snd (analyzeSpeech host cfg req s))
        = {| status := 200;
             body := AudioBody (lit "corrected_speech_" ++ newAnalysisId req
                                ++ lit ".mp3") (toString_base64 bytes) |})
    /\ (bytes = [] ->
        download (newAnalysisId req) (snd (analyzeSpeech host cfg req s))
        = {| status := 404;
             body := ErrorBody (lit "Audio file not found") None None |}).
Proof.
  intros H200.
  destruct (analyzeSpeech host cfg req s) as [resp s'] eqn:E.
  destruct (analyzeSpeech_success host cfg _ _ _ _ E H200)
    as (r & data & g & bytes & Hr & _ & _ & _ & _ & _ & _ & _ & Htts & Ha
        & _).
  exists r, bytes. cbn [snd]. split; [exact Hr|]. split; [exact Htts|].
  unfold download. rewrite Hr, Ha. split.
  - intros Hne. destruct (toString_base64 bytes) eqn:Eb; [|reflexivity].
    now apply toString_base64_nil in Eb.
  - intros ->. reflexivity.
Qed.

(** X6. [activeAnalyses] of GET /api/health after a request: a run that
    does not answer 200 leaves the count as it was; a 200 run raises it
    by one when its id was not in the map, and leaves it when the id was
    (the entry is overwritten). *)
Theorem health_counts_records req s :
  (status (fst (analyzeSpeech host cfg req s)) <> 200 ->
   health (snd (analyzeSpeech host cfg req s)) = health s)
  /\ (status (fst (analyzeSpeech host cfg req s)) = 200 ->
      analysisResults s !! newAnalysisId req = None ->
      health (snd (analyzeSpeech host cfg req s))
      = {| status := 200;
           body := HealthBody (S (size (analysisResults s))) |})
  /\ (status (fst (analyzeSpeech host cfg req s)) = 200 ->
      is_Some (analysisResults s !! newAnalysisId req) ->
      health (snd (analyzeSpeech host cfg req s)) = health s).
Proof.
  unfold health. repeat split.
  - intros Hne. now destruct (non200_stores_nothing host cfg req s Hne) as [-> _].
  - intros H200 Hfresh.
    destruct (analyzeSpeech host cfg req s) as [resp s'] eqn:E.
    destruct (analyzeSpeech_success host cfg _ _ _ _ E H200)
      as (r & data & g & bytes & _ & _ & _ & _ & _ & _ & _ & _ & _ & _
          & Hm & _).
    cbn [snd]. rewrite Hm. now rewrite map_size_insert_None.
  - intros H200 Hold.
    destruct (analyzeSpeech host cfg req s) as [resp s'] eqn:E.
    destruct (analyzeSpeech_success host cfg _ _ _ _ E H200)
      as (r & data & g & bytes & _ & _ & _ & _ & _ & _ & _ & _ & _ & _
          & Hm & _).
    cbn [snd]. rewrite Hm. now rewrite map_size_insert_Some.
Qed.

Lemma previewOf_short t : (length t <= 100)%nat -> previewOf t = t.
Proof.
  intros H. unfold previewOf, substring0.
  replace (100 <? length t)%nat with false
    by (symmetry; apply Nat.ltb_ge; lia).
  rewrite app_nil_r. now apply take_ge.
Qed.

Lemma previewOf_long t :
  (100 < length t)%nat -> previewOf t = take 100 t ++ lit "...".
Proof.
  intros H. unfold previewOf, substring0.
  now replace (100 <? length t)%nat with true
    by (symmetry; apply Nat.ltb_lt; lia).
Qed.

(** X7. The preview of a 200 response is the stored transcript itself
    when that has at most 100 code units, and otherwise its first 100
    code units followed by "..."; so it never has more than 103 code
    units and always agrees with the transcript on the first 100. *)
Theorem preview_is_bounded_prefix req s :
  status (fst (analyzeSpeech host cfg req s)) = 200 ->
  exists r id url pv hc,
    analysisResults (snd (analyzeSpeech host cfg req s))
      !! newAnalysisId req = Some r
    /\ body (fst (analyzeSpeech host cfg req s)) = SuccessBody id url pv hc
    /\ (length pv <= 103)%nat
    /\ take 100 pv = take 100 (transcript r)
    /\ ((length (transcript r) <= 100)%nat -> pv = transcript r)
    /\ ((100 < length (transcript r))%nat ->
        pv = take 100 (transcript r) ++ lit "...").
Proof.
  intros H200.
  destruct (analyzeSpeech host cfg req s) as [resp s'] eqn:E.
  destruct (analyzeSpeech_success host cfg _ _ _ _ E H200)
    as (r & data & g & bytes & Hr & -> & _).
  eexists r, _, _, _, _. cbn [fst snd].
  split; [exact Hr|]. split; [reflexivity|].
  destruct (decide (length (transcript r) <= 100)%nat) as [Hs|Hl].
  - rewrite (previewOf_short _ Hs).
    split; [lia|]. split; [reflexivity|]. split; [reflexivity|].
    intros Hl. lia.
  - assert (Hl' : (100 < length (transcript r))%nat) by lia.
    rewrite (previewOf_long _ Hl').
    split; [rewrite length_app, length_take;
            change (length (lit "...")) with 3%nat; lia|].
    split; [|split; [intros Hs; lia | reflexivity]].
    rewrite take_app_le by (rewrite length_take; lia).
    rewrite take_take. f_equal.
Qed.

(** X8. When the model's answer has no "Corrected:" marker, and also
    when the answer carries no text at all, the 200 response says
    [hasCorrections: false], and the stored corrected text is the
    transcript. *)
Theorem no_marker_no_corrections req s g :
  status (fst (analyzeSpeech host cfg req s)) = 200 ->
  gemini req = Fulfilled g ->
  afterMarker CorrectedMarker (orEmpty g) = None ->
  exists r id url pv,
    analysisResults (snd (analyzeSpeech host cfg req s))
      !! newAnalysisId req = Some r
    /\ correctedText r = transcript r
    /\ body (fst (analyzeSpeech host cfg req s)) = SuccessBody id url pv false.
Proof.
  intros H200 Hg Hnone.
  destruct (analyzeSpeech host cfg req s) as [resp s'] eqn:E.
  destruct (analyzeSpeech_success host cfg _ _ _ _ E H200)
    as (r & data & g' & bytes & Hr & -> & _ & _ & _ & _ & Hg' & Hp & _).
  rewrite Hg in Hg'. injection Hg' as <-.
  rewrite parseAnalysis_spec, Hnone in Hp. injection Hp as _ Hc.
  eexists r, _, _, _. cbn [fst snd]. split; [exact Hr|].
  split; [now symmetry|]. unfold successResponse. cbn [body].
  rewrite <- Hc. now rewrite bool_decide_eq_true_2.
Qed.

End ResponseFacts.

(* ===================================================================== *)
(** * What stays true of the store                                        *)
(* ===================================================================== *)

Section TrimFacts.

Lemma trimStart_fixed c r :
  isStrWhiteSpaceChar c = false -> trimStart (c :: r) = c :: r.
Proof. intros H. simpl. now rewrite H. Qed.

Lemma trimStart_head s :
  match trimStart s with
  | [] => True
  | c :: _ => isStrWhiteSpaceChar c = false
  end.
Proof.
  induction s as [|c s IH]; simpl; [exact I|].
  destruct (isStrWhiteSpaceChar c) eqn:E; [exact IH | exact E].
Qed.

Lemma trimStart_id s :
  match s with [] => True | c :: _ => isStrWhiteSpaceChar c = false end ->
  trimStart s = s.
Proof. destruct s as [|c s]; [reflexivity|]. apply trimStart_fixed. Qed.

(** [trimEnd] cuts a suffix off. *)
Lemma trimEnd_prefix s : exists w, s = trimEnd s ++ w.
Proof.
  unfold trimEnd. destruct (trimStart_suffix (rev s)) as [w Hw].
  exists (rev w). rewrite <- rev_app_distr, <- Hw. now rewrite rev_involutive.
Qed.

Lemma trim_idem s : trim (trim s) = trim s.
Proof.
  unfold trim at 1.
  assert (Hhead : match trim s with
                  | [] => True
                  | c :: _ => isStrWhiteSpaceChar c = false
                  end).
  { unfold trim. pose proof (trimStart_head s) as Hh.
    destruct (trimEnd_prefix (trimStart s)) as [w Hw].
    destruct (trimEnd (trimStart s)) as [|c u]; [exact I|].
    rewrite Hw in Hh. exact Hh. }
  rewrite (trimStart_id _ Hhead).
  unfold trim, trimEnd. rewrite rev_involutive.
  rewrite (trimStart_id (trimStart (rev (trimStart s)))
             (trimStart_head _)).
  reflexivity.
Qed.

(** The two strings a stored feedback can be are free of white space at
    both ends; the parse never throws. *)
Lemma parseAnalysis_trimmed t aiText :
  exists fb ct,
    parseAnalysis t aiText = Fulfilled (fb, ct) /\ trim fb = fb.
Proof.
  rewrite parseAnalysis_spec. eexists _, _. split; [reflexivity|].
  destruct (afterMarker FeedbackMarker aiText); [apply trim_idem|].
  vm_compute. reflexivity.
Qed.

End TrimFacts.

Section StoreInvariants.

Context (host : Host) (cfg : Config) (slack : N).

Lemma elem_of_delete_other {A} (l : list A) k x y :
  x ∈ l -> l !! k = Some y -> x <> y -> x ∈ delete k l.
Proof.
  revert k. induction l as [|a l IH]; intros k Hx Hk Hne; [inversion Hx|].
  destruct k as [|k]; simpl in *.
  - injection Hk as ->. apply elem_of_cons in Hx as [->|Hx];
      [contradiction | exact Hx].
  - apply elem_of_cons in Hx as [->|Hx]; [apply list_elem_of_here|].
    apply list_elem_of_further. now apply (IH k).
Qed.

Lemma step_store_wf s e s' l :
  step host cfg slack s e = Some (s', l) -> store_wf s -> store_wf s'.
Proof.
  intros Hstep Hwf. destruct e as [d|k|req]; cbn [step] in Hstep.
  - destruct (mayElapse slack (clock s + d) s); [|discriminate].
    injection Hstep as <- _. exact Hwf.
  - destruct (timers s !! k) as [[due id]|]; [|discriminate].
    destruct (due <=? clock s); [|discriminate].
    injection Hstep as <- _. intros k' r Hr. cbn [analysisResults] in Hr.
    apply lookup_delete_Some in Hr as [_ Hr]. exact (Hwf _ _ Hr).
  - injection Hstep as <- _.
    destruct (analyzeSpeech host cfg req s) as [resp s1] eqn:E. cbn [snd].
    destruct (analyzeSpeech_inv host cfg _ _ _ _ E)
      as [_ [(_ & Hm & _)|Hs]].
    + intros k' r. rewrite Hm. apply Hwf.
    + destruct Hs as (res & s0 & Hst & _ & Hm & _).
      destruct (stages_Next cfg _ _ _ _ Hst)
        as (? & ? & t & g & ? & _ & _ & _ & Hns & _ & Hp & _ & Hres & _).
      intros k' r. rewrite Hm.
      intros Hr. apply lookup_insert_Some in Hr as [[<- <-]|[_ Hr]];
        [|exact (Hwf _ _ Hr)].
      split; [reflexivity|]. split.
      * rewrite Hres. exact Hns.
      * destruct (parseAnalysis_trimmed t (orEmpty g))
          as (fb & ct & Hp' & Htrim).
        rewrite Hp in Hp'. injection Hp' as -> _. exact Htrim.
Qed.

(** X9. From start-up on, through any sequence of requests, timer
    callbacks and waiting, every stored record sits under its own id,
    has a transcript that is not blank, and has a feedback with no white
    space at either end. *)
Theorem store_stays_wellformed fs now es s log :
  run host cfg slack (boot fs now) es = Some (s, log) ->
  store_wf s.
Proof.
  assert (Hgen : forall es s0 s log,
            run host cfg slack s0 es = Some (s, log) ->
            store_wf s0 -> store_wf s).
  { clear. induction es as [|e es IH]; intros s0 s log Hrun Hwf.
    - injection Hrun as <- _. exact Hwf.
    - cbn [run] in Hrun.
      destruct (step host cfg slack s0 e) as [[s1 l1]|] eqn:Hstep;
        [|discriminate].
      destruct (run host cfg slack s1 es) as [[s3 l3]|] eqn:Hrest;
        [|discriminate].
      injection Hrun as <- _.
      eapply IH; [exact Hrest|]. eapply step_store_wf; eauto. }
  intros Hrun. eapply Hgen; [exact Hrun|].
  intros k r Hr. cbn in Hr. rewrite lookup_empty in Hr. discriminate.
Qed.

Lemma step_timers_wf s e s' l :
  step host cfg slack s e = Some (s', l) ->
  timers_wf slack s -> timers_wf slack s'.
Proof.
  intros Hstep [Hhas Hdue]. destruct e as [d|k|req]; cbn [step] in Hstep.
  - destruct (mayElapse slack (clock s + d) s) eqn:Hmay; [|discriminate].
    injection Hstep as <- _. split; [exact Hhas|].
    cbn [timers clock]. unfold mayElapse in Hmay.
    rewrite forallb_forall in Hmay.
    apply Forall_forall. intros tm Hin.
    pose proof (proj1 (Forall_forall _ _) Hdue tm Hin) as [H1 H2].
    apply list_elem_of_In in Hin. specialize (Hmay _ Hin).
    apply N.leb_le in Hmay. split; [lia | exact Hmay].
  - destruct (timers s !! k) as [[due id]|] eqn:Hk; [|discriminate].
    destruct (due <=? clock s); [|discriminate].
    injection Hstep as <- _. cbn [analysisResults timers clock]. split.
    + intros k' Hsome. cbn [analysisResults timers] in *.
      apply lookup_delete_is_Some in Hsome as [Hne Hsome].
      destruct (Hhas k' Hsome) as [due' Hin]. exists due'.
      apply (elem_of_delete_other _ _ _ _ Hin Hk). congruence.
    + cbn [timers clock]. now apply Forall_delete.
  - injection Hstep as <- _.
    destruct (analyzeSpeech host cfg req s) as [resp s1] eqn:E. cbn [snd].
    destruct (analyzeSpeech_inv host cfg _ _ _ _ E)
      as [Hclk [(_ & Hm & Ht)|Hs]].
    + unfold timers_wf. rewrite Hm, Ht, Hclk. split; assumption.
    + destruct Hs as (res & s0 & _ & _ & Hm & Ht & _).
      unfold timers_wf. rewrite Hm, Ht, Hclk. split.
      * intros k' Hsome. apply lookup_insert_is_Some in Hsome as [<-|[_ Hs]].
        -- exists (clock s + retention). apply elem_of_app. right.
           apply list_elem_of_singleton. reflexivity.
        -- destruct (Hhas k' Hs) as [due' Hin]. exists due'.
           apply elem_of_app. now left.
      * apply Forall_app. split; [exact Hdue|].
        repeat constructor; cbn [fst]; lia.
Qed.

(** X10. From start-up on, every stored record has an expiry timer
    pending for its id, every pending timer is due at most one hour
    from now, and none is overdue by more than the scheduling slack: no
    record is left without a deletion scheduled. *)
Theorem every_record_has_a_timer fs now es s log :
  run host cfg slack (boot fs now) es = Some (s, log) ->
  timers_wf slack s.
Proof.
  assert (Hgen : forall es s0 s log,
            run host cfg slack s0 es = Some (s, log) ->
            timers_wf slack s0 -> timers_wf slack s).
  { clear. induction es as [|e es IH]; intros s0 s log Hrun Hwf.
    - injection Hrun as <- _. exact Hwf.
    - cbn [run] in Hrun.
      destruct (step host cfg slack s0 e) as [[s1 l1]|] eqn:Hstep;
        [|discriminate].
      destruct (run host cfg slack s1 es) as [[s3 l3]|] eqn:Hrest;
        [|discriminate].
      injection Hrun as <- _.
      eapply IH; [exact Hrest|]. eapply step_timers_wf; eauto. }
  intros Hrun. eapply Hgen; [exact Hrun|]. split.
  - intros k [r Hr]. cbn in Hr. rewrite lookup_empty in Hr. discriminate.
  - constructor.
Qed.

(** X11. A record stored under an id for which an older timer is still
    pending is deleted when that older timer runs, however short a time
    the record has been in the map. *)
Theorem older_timer_deletes_new_record req s k due d s2 log :
  status (fst (analyzeSpeech host cfg req s)) = 200 ->
  timers s !! k = Some (due, newAnalysisId req) ->
  run host cfg slack (snd (analyzeSpeech host cfg req s))
    [Elapse d; Fire k] = Some (s2, log) ->
  getAnalysis (newAnalysisId req) s2
  = {| status := 404; body := ErrorBody (lit "Analysis not found") None None |}
  /\ clock s2 = clock s + d
  /\ log = [newAnalysisId req].
Proof.
  intros H200 Hk Hrun.
  destruct (analyzeSpeech host cfg req s) as [resp s1] eqn:E.
  cbn [fst snd] in *.
  destruct (analyzeSpeech_success host cfg _ _ _ _ E H200)
    as (r & data & g & bytes & _ & _ & _ & _ & _ & _ & _ & _ & _ & _
        & _ & Ht & Hclk & _).
  cbn [run step] in Hrun.
  destruct (mayElapse slack (clock s1 + d) s1); [|discriminate].
  cbn [timers clock analysisResults] in Hrun.
  assert (Hk1 : timers s1 !! k = Some (due, newAnalysisId req)).
  { rewrite Ht. rewrite lookup_app_l; [exact Hk|].
    now apply lookup_lt_Some in Hk. }
  rewrite Hk1 in Hrun.
  destruct (due <=? clock s1 + d); [|discriminate].
  injection Hrun as <- <-.
  unfold getAnalysis. cbn [analysisResults clock].
  rewrite lookup_delete_eq, Hclk. auto.
Qed.

End StoreInvariants.

(* ===================================================================== *)
(** * The files of a request                                              *)
(* ===================================================================== *)

Section TouchFacts.

Context {A B : Type}.

Lemma bind_touches ks (m : M A) (k : A -> M B) :
  touches ks m -> (forall a, touches ks (k a)) -> touches ks (bind m k).
Proof.
  intros Hm Hk s fl s' q. unfold bind.
  destruct (m s) as [[a|r|e] s1] eqn:E; intros H Hq.
  - rewrite (Hk a _ _ _ _ H Hq). exact (Hm _ _ _ _ E Hq).
  - injection H as <- <-. exact (Hm _ _ _ _ E Hq).
  - injection H as <- <-. exact (Hm _ _ _ _ E Hq).
Qed.

Lemma await_touches ks (o : outcome A) : touches ks (await o).
Proof.
  intros s fl s' q. unfold await. destruct o; intros H _; now inversion H.
Qed.

Lemma awaitS_touches ks (f : State -> outcome A * State) :
  (forall s q, q ∉ ks -> files (snd (f s)) !! q = files s !! q) ->
  touches ks (awaitS f).
Proof.
  intros Hf s fl s' q. unfold awaitS. specialize (Hf s q).
  destruct (f s) as [[x|e] s1]; intros H Hq; inversion H; subst;
    exact (Hf Hq).
Qed.

Lemma reply_touches ks r : touches ks (@reply A r).
Proof. intros s fl s' q H _. now inversion H. Qed.

Lemma ret_touches ks (a : A) : touches ks (ret a).
Proof. intros s fl s' q H _. now inversion H. Qed.

Lemma bind_done (m : M A) (k : A -> M B) s fl s' :
  bind m k s = (fl, s') -> (forall e, fl <> Throw e) ->
  (exists r, m s = (Reply r, s'))
  \/ exists a s1, m s = (Next a, s1) /\ k a s1 = (fl, s').
Proof.
  unfold bind. destruct (m s) as [[a|r|e] s1]; intros H Hn.
  - right. now exists a, s1.
  - left. exists r. congruence.
  - injection H as <- _. now destruct (Hn e).
Qed.

End TouchFacts.

Section FileClaims.

Context (host : Host) (cfg : Config).

Lemma tts_save_keeps o p q s :
  path_resolve cfg p <> q ->
  files (snd (tts_save cfg o p s)) !! q = files s !! q.
Proof.
  intros Hne. unfold tts_save.
  destruct o as [b|[b|]|e]; cbn [snd setFiles files];
    try reflexivity; now apply lookup_insert_ne.
Qed.

Lemma fs_unlink_absent p s :
  files (snd (fs_unlink cfg p s)) !! path_resolve cfg p = None.
Proof.
  unfold fs_unlink. destruct (files s !! path_resolve cfg p) eqn:E;
    cbn [snd setFiles files]; [apply lookup_delete_eq | exact E].
Qed.

(** Lines 113-200, after the upload has been unlinked: only the file of
    the corrected speech is written or removed. *)
Lemma after_unlink_touches req data :
  touches [path_resolve cfg (correctedAudioPathOf cfg req)]
    (bind (await (extractTranscript data)) (fun t =>
       if noSpeech t then
         reply (jsonError 400 "No speech detected"
                  "Could not detect any speech in the audio file. Please try again with a clearer recording.")
       else
         bind (await (gemini req)) (fun geminiText =>
         bind (await (parseAnalysis (default [] t) (orEmpty geminiText)))
           (fun parsed =>
         bind (awaitS (tts_save cfg (tts req (snd parsed))
                         (correctedAudioPathOf cfg req))) (fun _ =>
         bind (awaitS (fun s =>
                 (fs_readFile cfg (correctedAudioPathOf cfg req) s, s)))
           (fun audioBufferCorrected =>
         bind (awaitS (fs_unlink cfg (correctedAudioPathOf cfg req)))
           (fun _ =>
         ret {| rid := newAnalysisId req; transcript := default [] t;
                feedback := fst parsed; correctedText := snd parsed;
                audio := toString_base64 audioBufferCorrected;
                timestamp := iso_now req |}))))))).
Proof.
  apply bind_touches; [apply await_touches|]. intros t.
  destruct (noSpeech t); [apply reply_touches|].
  apply bind_touches; [apply await_touches|]. intros g.
  apply bind_touches; [apply await_touches|]. intros parsed.
  apply bind_touches.
  { apply awaitS_touches. intros s q Hq. apply tts_save_keeps.
    intros <-. apply Hq. apply list_elem_of_here. }
  intros _. apply bind_touches.
  { apply awaitS_touches. intros s q _. reflexivity. }
  intros bytes. apply bind_touches.
  { apply awaitS_touches. intros s q Hq. apply fs_unlink_keeps.
    intros <-. apply Hq. apply list_elem_of_here. }
  intros _. apply ret_touches.
Qed.

Lemma touches_weaken {A} ks ks' (m : M A) :
  (forall q, q ∈ ks -> q ∈ ks') -> touches ks m -> touches ks' m.
Proof. intros Hsub Hm s fl s' q H Hq. apply (Hm _ _ _ _ H). auto. Qed.

Lemma stages_touches req f :
  file req = Some f ->
  touches [path_resolve cfg (path_resolve cfg (path f));
           path_resolve cfg (correctedAudioPathOf cfg req)]
    (stages cfg req).
Proof.
  intros Hfile. unfold stages. rewrite Hfile.
  apply bind_touches.
  { apply awaitS_touches. intros s q _. reflexivity. }
  intros _. apply bind_touches; [apply await_touches|]. intros data.
  apply bind_touches.
  { apply awaitS_touches. intros s q Hq. apply fs_unlink_keeps.
    intros <-. apply Hq. apply list_elem_of_here. }
  intros _.
  eapply touches_weaken; [|apply (after_unlink_touches req data)].
  intros q Hq. apply list_elem_of_further. exact Hq.
Qed.

(** X12. A request changes no file other than its own upload and its
    own speech_<id>.mp3: every other path holds after the handler what
    it held before, on every path through the handler. *)
Theorem handler_touches_only_its_files req s q :
  (forall f, file req = Some f ->
     q <> path_resolve cfg (path f)
     /\ q <> path_resolve cfg (path_resolve cfg (path f))) ->
  q <> path_resolve cfg (correctedAudioPathOf cfg req) ->
  files (snd (analyzeSpeech host cfg req s)) !! q = files s !! q.
Proof.
  intros Hup Hcp. unfold analyzeSpeech, tryBlock.
  destruct (file req) as [f|] eqn:Hfile.
  - destruct (Hup f eq_refl) as [Hq1 Hq2].
    assert (Hst : forall fl s1, stages cfg req s = (fl, s1) ->
                    files s1 !! q = files s !! q).
    { intros fl s1 H. apply (stages_touches req f Hfile _ _ _ _ H).
      rewrite !elem_of_cons. intros [->|[->|Hn]]; try contradiction.
      inversion Hn. }
    unfold bind. destruct (stages cfg req s) as [[r|r|e] s1] eqn:E;
      cbn [snd storeResult reply files].
    + exact (Hst _ _ eq_refl).
    + exact (Hst _ _ eq_refl).
    + unfold catchBlock. rewrite Hfile. cbn [snd].
      rewrite fs_unlink_keeps by congruence. exact (Hst _ _ eq_refl).
  - unfold stages. rewrite Hfile. reflexivity.
Qed.

(** An absolute working directory makes [path.resolve] idempotent. *)
Lemma path_resolve_idem p :
  path_isAbsolute (cwd cfg) = true ->
  path_resolve cfg (path_resolve cfg p) = path_resolve cfg p.
Proof.
  intros Habs. unfold path_resolve at 2.
  destruct (path_isAbsolute p) eqn:E.
  - unfold path_resolve. now rewrite E.
  - unfold path_resolve.
    assert (H : path_isAbsolute (cwd cfg ++ lit "/" ++ p) = true).
    { unfold path_isAbsolute in *.
      destruct (cwd cfg) as [|c r]; [vm_compute in Habs; discriminate|].
      exact Habs. }
    now rewrite H, E.
Qed.

(** X13. With an absolute working directory, and an upload that is not
    the file the corrected speech goes to, the uploaded file does not
    exist any more when the handler has answered, whatever the answer:
    it is unlinked at line 111, or else in the [catch] block. *)
Theorem upload_is_removed req s f :
  file req = Some f ->
  path_isAbsolute (cwd cfg) = true ->
  path_resolve cfg (path f)
  <> path_resolve cfg (correctedAudioPathOf cfg req) ->
  files (snd (analyzeSpeech host cfg req s)) !! path_resolve cfg (path f)
  = None.
Proof.
  intros Hfile Habs Hne.
  pose proof (path_resolve_idem (path f) Habs) as Hidem.
  assert (Hdone : forall fl s1,
            stages cfg req s = (fl, s1) -> (forall e, fl <> Throw e) ->
            files s1 !! path_resolve cfg (path f) = None).
  { intros fl s1 H Hn. unfold stages in H. rewrite Hfile in H.
    destruct (bind_done _ _ _ _ _ H Hn) as [[r H']|(buf & s2 & H1 & H')];
      [now apply awaitS_Reply in H'|]. clear H.
    destruct (bind_done _ _ _ _ _ H' Hn) as [[r H]|(data & s3 & H2 & H)];
      [now apply await_Reply in H|]. clear H'.
    destruct (bind_done _ _ _ _ _ H Hn) as [[r H']|(u & s4 & H3 & H')];
      [now apply awaitS_Reply in H'|]. clear H. rename H' into H.
    apply awaitS_Next in H3.
    rewrite (after_unlink_touches req data _ _ _ _ H).
    - replace s4 with (snd (fs_unlink cfg (path_resolve cfg (path f)) s3))
        by (now rewrite H3).
      pose proof (fs_unlink_absent (path_resolve cfg (path f)) s3) as Hab.
      rewrite Hidem in Hab. exact Hab.
    - rewrite list_elem_of_singleton. exact Hne. }
  unfold analyzeSpeech, tryBlock, bind.
  destruct (stages cfg req s) as [[r|r|e] s1] eqn:E;
    cbn [snd storeResult reply files].
  - apply (Hdone _ _ eq_refl). discriminate.
  - apply (Hdone _ _ eq_refl). discriminate.
  - unfold catchBlock. rewrite Hfile. cbn [snd]. apply fs_unlink_absent.
Qed.

End FileClaims.

(* ===================================================================== *)
(** * Analysis ids                                                        *)
(* ===================================================================== *)

Section IdFacts.

Lemma N_of_ascii_inj a b : N_of_ascii a = N_of_ascii b -> a = b.
Proof.
  intros H. rewrite <- (ascii_N_embedding a), <- (ascii_N_embedding b).
  now rewrite H.
Qed.

Lemma lit_inj : forall s1 s2, lit s1 = lit s2 -> s1 = s2.
Proof.
  induction s1 as [|a s1 IH]; intros [|b s2] H; try discriminate;
    [reflexivity|].
  simpl in H. injection H as Ha Hs.
  f_equal; [now apply N_of_ascii_inj | now apply IH].
Qed.

Lemma ofN_inj a b : ofN a = ofN b -> a = b.
Proof.
  unfold ofN. intros H. apply lit_inj in H.
  assert (Hu : N.to_uint a = N.to_uint b).
  { pose proof (NilEmpty.usu (N.to_uint a)) as Ha.
    pose proof (NilEmpty.usu (N.to_uint b)) as Hb.
    rewrite H in Ha. congruence. }
  rewrite <- (DecimalN.Unsigned.of_to a), <- (DecimalN.Unsigned.of_to b).
  now rewrite Hu.
Qed.

Lemma ofN_digits n : Forall (fun c => c <> 95) (ofN n).
Proof.
  unfold ofN. generalize (N.to_uint n). intros d.
  induction d; simpl; constructor; try assumption; discriminate.
Qed.

Lemma split_at_underscore : forall a b x y : jsstring,
  Forall (fun c => c <> 95) a -> Forall (fun c => c <> 95) b ->
  a ++ 95 :: x = b ++ 95 :: y -> a = b /\ x = y.
Proof.
  induction a as [|c a IH]; intros [|c' b] x y Ha Hb H; simpl in H.
  - injection H as ->. auto.
  - injection H as Hc _. inversion Hb; subst. congruence.
  - injection H as Hc _. inversion Ha; subst. congruence.
  - injection H as -> H. inversion Ha; inversion Hb; subst.
    destruct (IH b x y) as [-> ->]; auto.
Qed.

(** X14. Two runs get the same analysis id exactly when they read the
    same [Date.now()] and drew the same nine characters from
    [Math.random()]: runs in different milliseconds never share an id,
    and so never share a speech_<id>.mp3 file either. *)
Theorem analysisId_collides_iff req1 req2 :
  newAnalysisId req1 = newAnalysisId req2 <->
  date_now req1 = date_now req2
  /\ substr 2 9 (random36 req1) = substr 2 9 (random36 req2).
Proof.
  unfold newAnalysisId. split.
  - intros H. apply app_inv_head in H.
    change (lit "_" ++ ?x) with (95 :: x) in H.
    apply split_at_underscore in H as [Hn Hr]; try apply ofN_digits.
    split; [now apply ofN_inj | exact Hr].
  - intros [-> ->]. reflexivity.
Qed.

End IdFacts.

(* ===================================================================== *)
(** * An empty feedback section                                           *)
(* ===================================================================== *)

Section EmptyFeedback.

Lemma trimStart_app_ws ws x :
  Forall (fun c => isStrWhiteSpaceChar c = true) ws ->
  trimStart (ws ++ x) = trimStart x.
Proof.
  induction 1 as [|c ws Hc _ IH]; simpl; [reflexivity|]. now rewrite Hc.
Qed.

Lemma trim_keeps_head c1 mid c2 suf :
  isStrWhiteSpaceChar c1 = false -> isStrWhiteSpaceChar c2 = false ->
  exists s', trim ((c1 :: mid ++ [c2]) ++ suf) = (c1 :: mid ++ [c2]) ++ s'.
Proof.
  intros H1 H2. unfold trim, trimEnd.
  change ((c1 :: mid ++ [c2]) ++ suf) with (c1 :: (mid ++ [c2]) ++ suf).
  rewrite (trimStart_fixed _ _ H1).
  replace (rev (c1 :: (mid ++ [c2]) ++ suf))
    with (rev suf ++ c2 :: rev (c1 :: mid)).
  2: { simpl. rewrite !rev_app_distr. simpl. rewrite <- !app_assoc.
       reflexivity. }
  destruct (trimStart_keeps (rev suf) c2 (rev (c1 :: mid)) H2) as [q E].
  rewrite E. exists (rev q).
  rewrite rev_app_distr. simpl. rewrite rev_app_distr, rev_involutive.
  simpl. rewrite <- !app_assoc. reflexivity.
Qed.

(** X15. When nothing but white space (the line feed included) stands
    between "Feedback:" and a following "Corrected:", the stored
    feedback is not empty: the white space is skipped together with the
    line feed, and the feedback begins with that "Corrected:" itself. *)
Theorem empty_feedback_swallows_corrected t aiText ws occ :
  afterMarker FeedbackMarker aiText = Some (ws ++ occ) ->
  Forall (fun c => isStrWhiteSpaceChar c = true) ws ->
  ciStartsWith CorrectedMarker occ = true ->
  exists s' ct,
    parseAnalysis t aiText = Fulfilled (take 10 occ ++ s', ct).
Proof.
  intros Ha Hws Hocc.
  rewrite parseAnalysis_spec, Ha.
  destruct (occurrence_char occ 0 Hocc ltac:(lia))
    as (c0 & r0 & Hd0 & _ & Hws0).
  destruct (occurrence_char occ 9 Hocc ltac:(lia))
    as (c9 & r9 & Hd9 & _ & Hws9).
  rewrite drop_0 in Hd0.
  assert (Hstart : trimStart (ws ++ occ) = occ).
  { rewrite (trimStart_app_ws _ _ Hws). subst occ.
    now apply trimStart_fixed. }
  rewrite Hstart.
  set (ok := fun r => ciStartsWith (LF :: CorrectedMarker) r || isEmpty r).
  set (cap := upTo (LF :: CorrectedMarker) occ).
  assert (Hcap : cap = lazyPrefix ok occ) by apply upTo_lazyPrefix.
  assert (Hok : ok (drop (length cap) occ) = true).
  { rewrite Hcap. now apply lazyPrefix_after. }
  assert (Hlen : (10 <= length cap)%nat).
  { destruct (decide (10 <= length cap)%nat) as [|Hn]; [assumption|].
    destruct (occurrence_char occ (length cap) Hocc ltac:(lia))
      as (c & r & Hd & Hc & _).
    unfold ok in Hok. rewrite Hd in Hok.
    rewrite ciStartsWith_LF in Hok by exact Hc. discriminate. }
  assert (Hcore : take 10 occ = c0 :: take 8 r0 ++ [c9]).
  { subst occ. cbn [take]. f_equal.
    do 8 (destruct r0 as [|? r0]; [discriminate Hd9|]).
    destruct r0 as [|? r0]; [discriminate Hd9|].
    cbn [drop] in Hd9. injection Hd9 as -> _. reflexivity. }
  assert (Ecap : cap = take 10 occ
                       ++ take (length cap - 10) (drop 10 occ)).
  { rewrite Hcap at 1. rewrite <- (lazyPrefix_take ok occ). rewrite <- Hcap.
    replace (length cap) with (10 + (length cap - 10))%nat at 1 by lia.
    rewrite <- (take_drop 10 occ) at 1.
    rewrite take_app_add'; [reflexivity|].
    rewrite length_take.
    apply (f_equal length) in Hd9. rewrite length_drop in Hd9.
    simpl in Hd9. lia. }
  rewrite Ecap, Hcore.
  destruct (trim_keeps_head c0 (take 8 r0) c9
              (take (length cap - 10) (drop 10 occ)) Hws0 Hws9)
    as [s' Hs'].
  rewrite Hs'. eauto.
Qed.

End EmptyFeedback.

(* ===================================================================== *)
(** * Speech and silence                                                  *)
(* ===================================================================== *)

Section SpeechFacts.

Context (host : Host) (cfg : Config).

Lemma trimStart_nil x :
  trimStart x = [] -> Forall (fun c => isStrWhiteSpaceChar c = true) x.
Proof.
  induction x as [|c x IH]; simpl; [constructor|].
  destruct (isStrWhiteSpaceChar c) eqn:E; [|discriminate].
  intros H. constructor; auto.
Qed.

Lemma trim_nil x :
  trim x = [] -> Forall (fun c => isStrWhiteSpaceChar c = true) x.
Proof.
  unfold trim, trimEnd. intros H.
  apply (f_equal (@rev N)) in H. rewrite rev_involutive in H. simpl in H.
  apply trimStart_nil in H.
  destruct (trimStart x) as [|c u] eqn:E; [now apply trimStart_nil|].
  pose proof (trimStart_head x) as Hh. rewrite E in Hh.
  apply Forall_forall with (x := c) in H; [congruence|].
  apply list_elem_of_In, in_rev. rewrite rev_involutive. now left.
Qed.

Lemma ws_or_not x :
  Forall (fun c => isStrWhiteSpaceChar c = true) x
  \/ Exists (fun c => isStrWhiteSpaceChar c = false) x.
Proof.
  induction x as [|c x [IH|IH]].
  - left. constructor.
  - destruct (isStrWhiteSpaceChar c) eqn:E.
    + left. now constructor.
    + right. now constructor.
  - right. now apply Exists_cons_tl.
Qed.

(** The test of line 116 fails exactly on a transcript with a character
    that is not white space. *)
Lemma noSpeech_false_iff x :
  noSpeech (Some x) = false <->
  Exists (fun c => isStrWhiteSpaceChar c = false) x.
Proof.
  split.
  - intros H. unfold noSpeech in H. apply orb_false_iff in H as [_ H].
    destruct (ws_or_not x) as [Hws|Hex]; [|exact Hex].
    rewrite (trim_all_ws x Hws) in H. discriminate.
  - intros Hex. unfold noSpeech.
    destruct (isEmpty x || isEmpty (trim x)) eqn:E; [|reflexivity].
    assert (Hnil : trim x = []).
    { apply orb_true_iff in E as [E|E].
      - destruct x; [reflexivity | discriminate].
      - destruct (trim x); [reflexivity | discriminate]. }
    apply trim_nil in Hnil. apply Exists_exists in Hex as (c & Hin & Hc).
    apply Forall_forall with (x := c) in Hnil; [congruence | exact Hin].
Qed.

(** X16. A transcript with at least one character that is not white
    space is never answered with a 400: once the upload was read and the
    transcription call answered with it, the run ends in 200, 408 or
    500. *)
Theorem speech_is_not_rejected req s f buf data x :
  file req = Some f ->
  fs_readFile cfg (path_resolve cfg (path f)) s = Fulfilled buf ->
  deepgram req = Fulfilled data ->
  extractTranscript data = Fulfilled (Some x) ->
  Exists (fun c => isStrWhiteSpaceChar c = false) x ->
  status (fst (analyzeSpeech host cfg req s)) <> 400.
Proof.
  intros Hfile Hread Hdg Hx Hex.
  apply noSpeech_false_iff in Hex.
  unfold analyzeSpeech, tryBlock. unfold bind at 1.
  destruct (stages cfg req s) as [[r|r|e] s1] eqn:E; cbn [fst].
  - discriminate.
  - exfalso. unfold stages in E. rewrite Hfile in E.
    apply bind_Reply in E as [H|(? & s2 & _ & H)];
      [now apply awaitS_Reply in H|].
    apply bind_Reply in H as [H|(data' & s3 & Hd & H)];
      [now apply await_Reply in H|].
    apply await_Next in Hd as [Hd _]. rewrite Hdg in Hd.
    injection Hd as <-.
    apply bind_Reply in H as [H|(? & s4 & _ & H)];
      [now apply awaitS_Reply in H|].
    apply bind_Reply in H as [H|(t & s5 & Ht & H)];
      [now apply await_Reply in H|].
    apply await_Next in Ht as [Ht _]. rewrite Hx in Ht.
    injection Ht as <-. rewrite Hex in H.
    apply bind_Reply in H as [H|(g & s6 & _ & H)];
      [now apply await_Reply in H|].
    apply bind_Reply in H as [H|(pa & s7 & _ & H)];
      [now apply await_Reply in H|].
    apply bind_Reply in H as [H|(? & s8 & _ & H)];
      [now apply awaitS_Reply in H|].
    apply bind_Reply in H as [H|(b & s9 & _ & H)];
      [now apply awaitS_Reply in H|].
    apply bind_Reply in H as [H|(? & s10 & _ & H)];
      [now apply awaitS_Reply in H|].
    inversion H.
  - unfold catchBlock. cbn [fst]. unfold errorResponse.
    destruct (isTimeout e); [discriminate|].
    destruct (bool_decide _); discriminate.
Qed.

(** X17. When the handler answers 200, the speech_<id>.mp3 it had the
    synthesizer write has been read back and deleted: no file of that
    name is left. *)
Theorem speech_file_removed_on_success req s :
  status (fst (analyzeSpeech host cfg req s)) = 200 ->
  files (snd (analyzeSpeech host cfg req s))
    !! path_resolve cfg (correctedAudioPathOf cfg req) = None.
Proof.
  intros H200.
  destruct (analyzeSpeech host cfg req s) as [resp s'] eqn:E.
  destruct (analyzeSpeech_inv host cfg _ _ _ _ E) as [_ [(Hne & _)|Hs]];
    [contradiction|].
  destruct Hs as (r & s1 & Hst & _ & _ & _ & Hfiles).
  destruct (stages_Next cfg _ _ _ _ Hst)
    as (? & ? & ? & ? & ? & _ & _ & _ & _ & _ & _ & _ & _ & Hgone).
  cbn [snd]. now rewrite Hfiles.
Qed.

End SpeechFacts.

(* ===================================================================== *)
(** * More sample runs                                                    *)
(* ===================================================================== *)

Section MoreSampleRuns.

Import Examples MoreExamples.

Lemma malformed_transcription_is_500_witness :
  status (fst (analyzeSpeech asciiHost cfg0 reqNoChannels s0)) = 500
  /\ (exists details,
        body (fst (analyzeSpeech asciiHost cfg0 reqNoChannels s0))
        = ErrorBody (lit "Analysis failed")
            (Some (lit "Failed to analyze speech. Please ensure you uploaded a valid audio file and try again."))
            details)
  /\ analysisResults (snd (analyzeSpeech asciiHost cfg0 reqNoChannels s0))
     = analysisResults s0.
Proof.
  apply (malformed_transcription_is_500 asciiHost cfg0 reqNoChannels s0
           upload1 [82; 73; 70; 70] noChannels); try reflexivity.
  exists {| results := Some {| channels := None |} |}, {| channels := None |}.
  repeat split. now left.
Defined.

Lemma synthesis_error_is_generic_500_witness :
  fst (analyzeSpeech asciiHost cfgDev reqTtsFails s0)
  = {| status := 500;
       body := ErrorBody (lit "Analysis failed")
         (Some (lit "Failed to analyze speech. Please ensure you uploaded a valid audio file and try again."))
         (Some (lit "Failed to generate corrected audio")) |}.
Proof.
  exact (synthesis_error_is_generic_500 asciiHost cfgDev reqTtsFails s0
           upload1 [82; 73; 70; 70]
           (Some {| results := Some {| channels := Some
              [ {| alternatives := Some [ {| alt_transcript := said |} ] |} ]
            |} |})
           (lit "he go to school yesterday") (Some answerTwoLines)
           (lit "Watch subject-verb agreement and past tense.")
           (lit "He went to school yesterday.") (Some [73])
           eq_refl eq_refl eq_refl eq_refl eq_refl eq_refl eq_refl eq_refl).
Defined.

Lemma analysisId_retrieves_record_witness :
  exists id pv hc r,
    body (fst (analyzeSpeech asciiHost cfg0 reqTwoLines s0))
    = SuccessBody id (lit "/results/" ++ id) pv hc
    /\ getAnalysis id (snd (analyzeSpeech asciiHost cfg0 reqTwoLines s0))
       = {| status := 200; body := RecordBody r |}
    /\ rid r = id
    /\ timestamp r = lit "2023-11-14T22:13:20.000Z".
Proof.
  apply (analysisId_retrieves_record asciiHost cfg0 reqTwoLines s0).
  vm_compute; reflexivity.
Defined.

Lemma download_after_success_witness :
  exists r bytes,
    analysisResults (snd (analyzeSpeech asciiHost cfg0 reqTwoLines s0))
      !! newAnalysisId reqTwoLines = Some r
    /\ tts reqTwoLines (correctedText r) = TtsSaved bytes
    /\ (bytes <> [] ->
        download (newAnalysisId reqTwoLines)
          (snd (analyzeSpeech asciiHost cfg0 reqTwoLines s0))
        = {| status := 200;
             body := AudioBody (lit "corrected_speech_"
                                ++ newAnalysisId reqTwoLines ++ lit ".mp3")
                       (toString_base64 bytes) |})
    /\ (bytes = [] ->
        download (newAnalysisId reqTwoLines)
          (snd (analyzeSpeech asciiHost cfg0 reqTwoLines s0))
        = {| status := 404;
             body := ErrorBody (lit "Audio file not found") None None |}).
Proof.
  apply (download_after_success asciiHost cfg0 reqTwoLines s0).
  vm_compute; reflexivity.
Defined.

Lemma preview_is_bounded_prefix_witness :
  exists r id url pv hc,
    analysisResults (snd (analyzeSpeech asciiHost cfg0 reqLong s0))
      !! newAnalysisId reqLong = Some r
    /\ body (fst (analyzeSpeech asciiHost cfg0 reqLong s0))
       = SuccessBody id url pv hc
    /\ (length pv <= 103)%nat
    /\ take 100 pv = take 100 (transcript r)
    /\ ((length (transcript r) <= 100)%nat -> pv = transcript r)
    /\ ((100 < length (transcript r))%nat ->
        pv = take 100 (transcript r) ++ lit "...").
Proof.
  apply (preview_is_bounded_prefix asciiHost cfg0 reqLong s0).
  vm_compute; reflexivity.
Defined.

Lemma no_marker_no_corrections_witness :
  exists r id url pv,
    analysisResults (snd (analyzeSpeech asciiHost cfg0 reqNoAnswer s0))
      !! newAnalysisId reqNoAnswer = Some r
    /\ correctedText r = transcript r
    /\ body (fst (analyzeSpeech asciiHost cfg0 reqNoAnswer s0))
       = SuccessBody id url pv false.
Proof.
  apply (no_marker_no_corrections asciiHost cfg0 reqNoAnswer s0 None);
    vm_compute; reflexivity.
Defined.

Lemma store_stays_wellformed_witness :
  exists s log,
    run asciiHost cfg0 50 (boot twoUploads 1000)
      [Post reqTwoLines; Elapse 1800000; Post reqAgain] = Some (s, log)
    /\ size (analysisResults s) = 1%nat
    /\ store_wf s.
Proof.
  assert (Hrun : exists s log,
            run asciiHost cfg0 50 (boot twoUploads 1000)
              [Post reqTwoLines; Elapse 1800000; Post reqAgain]
            = Some (s, log)
            /\ size (analysisResults s) = 1%nat).
  { eexists _, _. split; vm_compute; reflexivity. }
  destruct Hrun as (s & log & Hrun & Hsize). exists s, log.
  split; [exact Hrun|]. split; [exact Hsize|].
  exact (store_stays_wellformed asciiHost cfg0 50 twoUploads 1000
           [Post reqTwoLines; Elapse 1800000; Post reqAgain] s log Hrun).
Defined.

Lemma every_record_has_a_timer_witness :
  exists s log,
    run asciiHost cfg0 50 (boot twoUploads 1000) busyHour = Some (s, log)
    /\ timers_wf 50 s.
Proof.
  assert (Hrun : exists s log,
            run asciiHost cfg0 50 (boot twoUploads 1000) busyHour
            = Some (s, log)).
  { eexists _, _. vm_compute; reflexivity. }
  destruct Hrun as (s & log & Hrun). exists s, log.
  split; [exact Hrun|].
  exact (every_record_has_a_timer asciiHost cfg0 50 twoUploads 1000
           busyHour s log Hrun).
Defined.

(** The second record of [busyHour] is stored half an hour after the
    first, under the same id, and is deleted with it. *)
Lemma older_timer_deletes_new_record_witness :
  exists s2 log,
    run asciiHost cfg0 50
      (snd (analyzeSpeech asciiHost cfg0 reqAgain halfAnHourLater))
      [Elapse 1800000; Fire 0] = Some (s2, log)
    /\ clock halfAnHourLater = 1801000
    /\ getAnalysis (newAnalysisId reqAgain) s2
       = {| status := 404;
            body := ErrorBody (lit "Analysis not found") None None |}
    /\ clock s2 = 3601000.
Proof.
  assert (Hrun : exists s2 log,
            run asciiHost cfg0 50
              (snd (analyzeSpeech asciiHost cfg0 reqAgain halfAnHourLater))
              [Elapse 1800000; Fire 0] = Some (s2, log)).
  { eexists _, _. vm_compute; reflexivity. }
  destruct Hrun as (s2 & log & Hrun). exists s2, log.
  destruct (older_timer_deletes_new_record asciiHost cfg0 50 reqAgain
              halfAnHourLater 0 3601000 1800000 s2 log)
    as (Hget & Hclk & _); [vm_compute; reflexivity .. | exact Hrun |].
  split; [exact Hrun|]. split; [vm_compute; reflexivity|].
  split; [exact Hget|]. rewrite Hclk. vm_compute; reflexivity.
Defined.

Lemma handler_touches_only_its_files_witness :
  files (snd (analyzeSpeech asciiHost cfg0 reqTwoLines (boot twoUploads 1000)))
    !! lit "/app/uploads/u2" = Some [82; 73; 70; 70].
Proof.
  rewrite (handler_touches_only_its_files asciiHost cfg0 reqTwoLines
             (boot twoUploads 1000) (lit "/app/uploads/u2")).
  - vm_compute; reflexivity.
  - intros f Hf. vm_compute in Hf. injection Hf as <-.
    split; vm_compute; discriminate.
  - vm_compute; discriminate.
Defined.

Lemma upload_is_removed_witness :
  files (snd (analyzeSpeech asciiHost cfg0 reqTtsFails s0))
    !! lit "/app/uploads/u1" = None.
Proof.
  apply (upload_is_removed asciiHost cfg0 reqTtsFails s0 upload1).
  - reflexivity.
  - vm_compute; reflexivity.
  - vm_compute; discriminate.
Defined.

Lemma empty_feedback_swallows_corrected_witness :
  exists s' ct,
    parseAnalysis (lit "he go to school yesterday") answerEmptyFeedback
    = Fulfilled (lit "Corrected:" ++ s', ct).
Proof.
  apply (empty_feedback_swallows_corrected
           (lit "he go to school yesterday") answerEmptyFeedback
           [10] (lit "Corrected: He went.")).
  - vm_compute; reflexivity.
  - repeat constructor.
  - vm_compute; reflexivity.
Defined.

Lemma speech_is_not_rejected_witness :
  status (fst (analyzeSpeech asciiHost cfg0 reqTwoLines s0)) <> 400.
Proof.
  apply (speech_is_not_rejected asciiHost cfg0 reqTwoLines s0 upload1
           [82; 73; 70; 70]
           (Some {| results := Some {| channels := Some
              [ {| alternatives := Some [ {| alt_transcript := said |} ] |} ]
            |} |})
           (lit "he go to school yesterday")); try reflexivity.
  apply Exists_cons_hd. reflexivity.
Defined.

Lemma speech_file_removed_on_success_witness :
  files (snd (analyzeSpeech asciiHost cfg0 reqTwoLines s0))
    !! lit "/app/temp/speech_analysis_1700000000000_4fzyo82mv.mp3" = None.
Proof.
  apply (speech_file_removed_on_success asciiHost cfg0 reqTwoLines s0).
  vm_compute; reflexivity.
Defined.

End MoreSampleRuns.
